(** * ProviderBridgeService: the RPC bridge and its permissions

    A shallow embedding of [ProviderBridgeService] (the background service
    that talks to the content script over a runtime port) and of the
    dApp-permission selectors of the redux slice.

    The service is asynchronous.  Every invocation of [onMessageListener]
    is kept as a [Call]; it runs atomically up to its next real suspension
    point and is later continued by an explicit step:

    - [await ProviderBridgeService.showDappConnectWindow(..)] in
      [requestPermission] suspends the call until the browser has created
      the popup ([windowOpened] continues it);
    - [await this.requestPermission(..)] suspends it until the promise
      built by [new Promise((resolve) => ..)] is settled, because an async
      function that returns a promise adopts it ([resume] continues it).

    [await this.checkPermission(url)] is not a suspension point of the
    model: the body of [checkPermission] reads [#allowedPages] synchronously
    when it is called, so its answer is fixed at the call.

    The two private objects [#allowedPages] and [#pendingPermissionsRequests]
    are object literals used as maps keyed by URL; their own properties are
    finite maps here.  An object literal also inherits the properties of
    [Object.prototype]: [grantPermission] and [denyOrRevokePermission],
    whose key is chosen by their caller, are modelled with that
    inheritance.  The keys the listener itself uses are the page URLs the
    browser reports for a port, which never are such names. *)

From stdpp Require Import gmap strings list fin_maps.


(** ** Values crossing the bridge *)

(** [unknown] values exchanged with the provider and the content script. *)
#[local] Unset Elimination Schemes.
Inductive JSON :=
| JNull
| JBool (b : bool)
| JNum (n : Z)
| JStr (s : string)
| JArr (l : list JSON)
| JObj (l : list (string * JSON)).
#[local] Set Elimination Schemes.

(** The entries of [EIP1193_ERROR] that the service uses; the table itself
    lives in the shared package. *)
Inductive EIP1193_ERROR := userRejectedRequest | unauthorized.

Inductive EIP1193Error := new_EIP1193Error (e : EIP1193_ERROR).

(** [PortResponseEvent["result"]]: a plain value or a bridge error object. *)
Inductive Result :=
| Value (v : JSON)
| BridgeError (e : EIP1193Error).

(** What awaiting a call of the internal provider gives: the promise is
    fulfilled with a value, or it is rejected and the [await] throws. *)
Inductive Outcome :=
| Returned (v : JSON)
| Raised (e : JSON).

Record PermissionRequest := {
  url : string;
  favIconUrl : string;
  title : string;
  state : string
}.

#[global] Instance PermissionRequest_eq_dec : EqDecision PermissionRequest :=
  ltac:(solve_decision).

Record RPCRequest := {
  method : string;
  params : list JSON
}.

Module PortRequestEvent.
Record t := { id : string; request : RPCRequest }.
End PortRequestEvent.

Module PortResponseEvent.
Record t := { id : string; result : Result }.
End PortResponseEvent.

(** [browser.Tabs.Tab], the two optional fields that are read. *)
Record Tab := {
  tab_favIconUrl : option string;
  tab_title : option string
}.

(** [Required<browser.Runtime.Port>]: the listener is only installed on
    ports whose [sender.url] is set. *)
Record Port := {
  sender_url : string;
  sender_tab : option Tab
}.

(** [browser.Windows.Window], the fields read by [showDappConnectWindow]. *)
Record Window := {
  win_left : option Z;
  win_top : option Z;
  win_width : option Z
}.

(** The argument of [browser.windows.create]. *)
Record CreateData := {
  cd_url : string;
  cd_type : string;
  cd_left : Z;
  cd_top : option Z;
  cd_width : Z;
  cd_height : Z;
  cd_focused : bool
}.

(** ** Collaborators *)

Class InternalEthereumProviderService := {
  routeSafeRPCRequest : string → list JSON → Outcome
}.

Class Browser := {
  windows_getCurrent : Window;
  runtime_getURL : string → string;
  (** [ALLOWED_QUERY_PARAM_PAGE.dappConnect] of the shared package. *)
  ALLOWED_QUERY_PARAM_PAGE_dappConnect : string
}.

(** ** Promises and calls *)

(** The value a consent promise was resolved with: [grantPermission] passes
    the permission, [denyOrRevokePermission] passes a string. *)
Inductive Settlement :=
| WithPermission (p : PermissionRequest)
| WithText (s : string).

Inductive PromiseState :=
| Pending
| Resolved (v : Settlement).

(** Where an invocation of [onMessageListener] stands. *)
Inductive Stage :=
| AwaitWindow (permissionRequest : PermissionRequest)
| AwaitConsent (promise : nat)
| Posted (response : PortResponseEvent.t)
| Rejected (error : JSON).

Record Call := {
  c_port : Port;
  c_event : PortRequestEvent.t;
  c_stage : Stage
}.

(** The service instance together with what it has done to the outside.
    [pendingPermissionsRequests] maps a URL to the [resolve] function of
    the promise with that index in [promises]. *)
Record World := {
  allowedPages : gmap string PermissionRequest;
  pendingPermissionsRequests : gmap string nat;
  promises : list PromiseState;
  calls : list Call;
  emitted : list PermissionRequest;
  windows : list CreateData;
  providerCalls : list (string * list JSON);
  posted : list (Port * PortResponseEvent.t)
}.

Definition initial : World :=
  {| allowedPages := ∅; pendingPermissionsRequests := ∅; promises := [];
     calls := []; emitted := []; windows := []; providerCalls := [];
     posted := [] |}.

Definition set_allowedPages (f : gmap string PermissionRequest → gmap string PermissionRequest)
    (w : World) : World :=
  {| allowedPages := f (allowedPages w);
     pendingPermissionsRequests := pendingPermissionsRequests w;
     promises := promises w; calls := calls w; emitted := emitted w;
     windows := windows w; providerCalls := providerCalls w;
     posted := posted w |}.

Definition set_pending (f : gmap string nat → gmap string nat) (w : World) : World :=
  {| allowedPages := allowedPages w;
     pendingPermissionsRequests := f (pendingPermissionsRequests w);
     promises := promises w; calls := calls w; emitted := emitted w;
     windows := windows w; providerCalls := providerCalls w;
     posted := posted w |}.

Definition set_promises (f : list PromiseState → list PromiseState) (w : World) : World :=
  {| allowedPages := allowedPages w;
     pendingPermissionsRequests := pendingPermissionsRequests w;
     promises := f (promises w); calls := calls w; emitted := emitted w;
     windows := windows w; providerCalls := providerCalls w;
     posted := posted w |}.

Definition set_calls (f : list Call → list Call) (w : World) : World :=
  {| allowedPages := allowedPages w;
     pendingPermissionsRequests := pendingPermissionsRequests w;
     promises := promises w; calls := f (calls w); emitted := emitted w;
     windows := windows w; providerCalls := providerCalls w;
     posted := posted w |}.

Definition set_emitted (f : list PermissionRequest → list PermissionRequest) (w : World) : World :=
  {| allowedPages := allowedPages w;
     pendingPermissionsRequests := pendingPermissionsRequests w;
     promises := promises w; calls := calls w; emitted := f (emitted w);
     windows := windows w; providerCalls := providerCalls w;
     posted := posted w |}.

Definition set_windows (f : list CreateData → list CreateData) (w : World) : World :=
  {| allowedPages := allowedPages w;
     pendingPermissionsRequests := pendingPermissionsRequests w;
     promises := promises w; calls := calls w; emitted := emitted w;
     windows := f (windows w); providerCalls := providerCalls w;
     posted := posted w |}.

Definition set_providerCalls (f : list (string * list JSON) → list (string * list JSON))
    (w : World) : World :=
  {| allowedPages := allowedPages w;
     pendingPermissionsRequests := pendingPermissionsRequests w;
     promises := promises w; calls := calls w; emitted := emitted w;
     windows := windows w; providerCalls := f (providerCalls w);
     posted := posted w |}.

Definition set_posted (f : list (Port * PortResponseEvent.t) → list (Port * PortResponseEvent.t))
    (w : World) : World :=
  {| allowedPages := allowedPages w;
     pendingPermissionsRequests := pendingPermissionsRequests w;
     promises := promises w; calls := calls w; emitted := emitted w;
     windows := windows w; providerCalls := providerCalls w;
     posted := f (posted w) |}.

(** Calling the [resolve] function of promise [n]: only the first call of
    a promise's [resolve] has an effect. *)
Definition call_resolve (n : nat) (v : Settlement) (ps : list PromiseState) : list PromiseState :=
  match ps !! n with
  | Some Pending => <[n := Resolved v]> ps
  | _ => ps
  end.

(** The string-named properties of [Object.prototype].  Read through an
    object literal that has no own property of that name, each of them is
    truthy: eleven are functions, and [__proto__] gives the prototype. *)
Definition Object_prototype_names : list string :=
  ["constructor"; "__defineGetter__"; "__defineSetter__"; "hasOwnProperty";
   "__lookupGetter__"; "__lookupSetter__"; "isPrototypeOf";
   "propertyIsEnumerable"; "toString"; "valueOf"; "__proto__";
   "toLocaleString"].

Definition inherited (k : string) : bool :=
  bool_decide (k ∈ Object_prototype_names).

(** Calling the value read under such a name with the one argument the
    service passes throws a [TypeError] for three of them: the prototype
    is not a function, and [__defineGetter__] and [__defineSetter__] want
    a function as their second argument.  The others return without
    touching the object ([toLocaleString] calls [toString], which is the
    inherited one, no page URL being that name). *)
Definition inherited_call_throws (k : string) : bool :=
  bool_decide (k ∈ ["__proto__"; "__defineGetter__"; "__defineSetter__"]).

Section ProviderBridgeService.
Context `{provider : InternalEthereumProviderService} `{browser : Browser}.

(** [checkPermission]: [this.#allowedPages[url]?.state === "allow"]. *)
Definition checkPermission (u : string) (w : World) : bool :=
  match allowedPages w !! u with
  | Some p => bool_decide (state p = "allow")
  | None => false
  end.

(** [this.internalEthereumProviderService.routeSafeRPCRequest(m, ps)]:
    the call is recorded, its outcome is the provider's. *)
Definition callProvider (m : string) (ps : list JSON) (w : World) : Outcome * World :=
  (routeSafeRPCRequest m ps, set_providerCalls (λ l, l ++ [(m, ps)]) w).

Definition routeContentScriptRPCRequest (m : string) (ps : list JSON) (w : World)
    : Outcome * World :=
  if String.eqb m "eth_requestAccounts"
  then callProvider "eth_accounts" ps w
  else callProvider m ps w.

(** The method name the dispatcher hands to the provider. *)
Definition forwarded (m : string) : string :=
  if decide (m = "eth_requestAccounts") then "eth_accounts" else m.

(** [showDappConnectWindow]: the popup is anchored to the right edge of
    the current window, with the defaults [left = 0] and [width = 1920]. *)
Definition showDappConnectWindow (page : string) (w : World) : World :=
  let cur := windows_getCurrent in
  let left := default 0%Z (win_left cur) in
  let width := default 1920%Z (win_width cur) in
  let popupWidth := 384%Z in
  let popupHeight := 558%Z in
  set_windows (λ l, l ++ [
    {| cd_url := runtime_getURL "popup.html" +:+ "?page=" +:+ page;
       cd_type := "popup";
       cd_left := (left + width - popupWidth)%Z;
       cd_top := win_top cur;
       cd_width := popupWidth;
       cd_height := popupHeight;
       cd_focused := true |}]) w.

(** [requestPermission] up to the suspension on the popup: the
    notification is emitted and the popup is asked for.  The two awaits
    inside [showDappConnectWindow], on the current window and on the new
    one, are one suspension here; the notification comes first and the
    registration in [requestPermission_finish] comes after both. *)
Definition requestPermission_begin (permissionRequest : PermissionRequest) (w : World) : World :=
  showDappConnectWindow ALLOWED_QUERY_PARAM_PAGE_dappConnect
    (set_emitted (λ l, l ++ [permissionRequest]) w).

(** [requestPermission] after its [await]: a new promise is built and its
    [resolve] is stored under the URL, over whatever was stored there. *)
Definition requestPermission_finish (permissionRequest : PermissionRequest) (w : World)
    : nat * World :=
  let n := length (promises w) in
  (n, set_pending (λ m, <[url permissionRequest := n]> m)
        (set_promises (λ l, l ++ [Pending]) w)).

(** [grantPermission].  The guard [this.#pendingPermissionsRequests[url]]
    is truthy when the registry has an own entry for the URL, and also
    when the URL names a property of [Object.prototype].  In that second
    case the record is stored all the same, the inherited value is called
    in place of a [resolve], and the [delete] finds nothing to remove.
    Under the name [__proto__] the assignment goes to the inherited setter
    and the read in [checkPermission] to the inherited getter, so the
    record behaves as the entry of that name, which no [delete] removes. *)
Definition grantPermission (permission : PermissionRequest) (w : World) : World :=
  match pendingPermissionsRequests w !! url permission with
  | Some n =>
      set_pending (λ m, delete (url permission) m)
        (set_promises (call_resolve n (WithPermission permission))
          (set_allowedPages (λ m, <[url permission := permission]> m) w))
  | None =>
      if inherited (url permission)
      then set_allowedPages (λ m, <[url permission := permission]> m) w
      else w
  end.

(** Whether that call of [grantPermission] ends in a rejected promise. *)
Definition grantPermission_raises (permission : PermissionRequest) (w : World) : bool :=
  match pendingPermissionsRequests w !! url permission with
  | Some _ => false
  | None => inherited_call_throws (url permission)
  end.

(** [denyOrRevokePermission], with the same guard.  Under an inherited
    name the stored record is deleted with nothing pending, except under
    [__proto__], where [delete] finds no own property. *)
Definition denyOrRevokePermission (permission : PermissionRequest) (w : World) : World :=
  match pendingPermissionsRequests w !! url permission with
  | Some n =>
      set_pending (λ m, delete (url permission) m)
        (set_promises (call_resolve n (WithText "Time to move on"))
          (set_allowedPages (λ m, delete (url permission) m) w))
  | None =>
      if inherited (url permission) && negb (String.eqb (url permission) "__proto__")
      then set_allowedPages (λ m, delete (url permission) m) w
      else w
  end.

Definition denyOrRevokePermission_raises (permission : PermissionRequest) (w : World) : bool :=
  match pendingPermissionsRequests w !! url permission with
  | Some _ => false
  | None => inherited_call_throws (url permission)
  end.

(** [port.postMessage(response)]. *)
Definition port_postMessage (port : Port) (response : PortResponseEvent.t) (w : World) : World :=
  set_posted (λ l, l ++ [(port, response)]) w.

(** [response.result = r]. *)
Definition with_result (response : PortResponseEvent.t) (r : Result) : PortResponseEvent.t :=
  {| PortResponseEvent.id := PortResponseEvent.id response;
     PortResponseEvent.result := r |}.

(** A new invocation of the listener, entered in the call list at the
    stage it has reached. *)
Definition spawn (port : Port) (event : PortRequestEvent.t) (s : Stage) (w : World) : World :=
  set_calls (λ l, l ++ [{| c_port := port; c_event := event; c_stage := s |}]) w.

Definition set_stage (i : nat) (t : Call) (s : Stage) (w : World) : World :=
  set_calls (λ l, <[i := {| c_port := c_port t; c_event := c_event t; c_stage := s |}]> l) w.

(** [onMessageListener] from its entry to the first suspension point, or
    to its end when it does not suspend.  When the provider's promise is
    rejected the [await] throws, nothing catches it, and the listener's
    own promise is rejected before [port.postMessage] is reached. *)
Definition onMessageListener (port : Port) (event : PortRequestEvent.t) (w : World) : World :=
  let u := sender_url port in
  let favIcon := default "" (sender_tab port ≫= tab_favIconUrl) in
  let ttl := default "" (sender_tab port ≫= tab_title) in
  let rq := PortRequestEvent.request event in
  let response :=
    {| PortResponseEvent.id := PortRequestEvent.id event;
       PortResponseEvent.result := Value (JArr []) |} in
  if checkPermission u w then
    match routeContentScriptRPCRequest (method rq) (params rq) w with
    | (Returned v, w1) =>
        let response := with_result response (Value v) in
        spawn port event (Posted response) (port_postMessage port response w1)
    | (Raised e, w1) => spawn port event (Rejected e) w1
    end
  else if String.eqb (method rq) "eth_requestAccounts" then
    let permissionRequest :=
      {| url := u; favIconUrl := favIcon; title := ttl; state := "request" |} in
    spawn port event (AwaitWindow permissionRequest)
      (requestPermission_begin permissionRequest w)
  else
    let response :=
      with_result response (BridgeError (new_EIP1193Error unauthorized)) in
    spawn port event (Posted response) (port_postMessage port response w).

(** The popup exists: call [i] leaves [showDappConnectWindow], registers
    its promise and waits for it. *)
Definition windowOpened (i : nat) (w : World) : World :=
  match calls w !! i with
  | Some t =>
      match c_stage t with
      | AwaitWindow permissionRequest =>
          let '(n, w1) := requestPermission_finish permissionRequest w in
          set_stage i t (AwaitConsent n) w1
      | _ => w
      end
  | None => w
  end.

(** Call [i] continues after the [await] on its promise, which it can
    do once the promise is resolved: the permission is checked again and
    the response is posted, its [result] still the initial [[]] unless
    the check fails. *)
Definition resume (i : nat) (w : World) : World :=
  match calls w !! i with
  | Some t =>
      match c_stage t with
      | AwaitConsent n =>
          match promises w !! n with
          | Some (Resolved _) =>
              let response :=
                {| PortResponseEvent.id := PortRequestEvent.id (c_event t);
                   PortResponseEvent.result := Value (JArr []) |} in
              let response :=
                if negb (checkPermission (sender_url (c_port t)) w)
                then with_result response
                       (BridgeError (new_EIP1193Error userRejectedRequest))
                else response in
              set_stage i t (Posted response)
                (port_postMessage (c_port t) response w)
          | _ => w
          end
      | _ => w
      end
  | None => w
  end.

(** What can happen to the service. *)
Inductive Action :=
| Message (port : Port) (event : PortRequestEvent.t)
| WindowOpened (i : nat)
| Grant (permission : PermissionRequest)
| Deny (permission : PermissionRequest)
| Resume (i : nat).

Definition step (w : World) (a : Action) : World :=
  match a with
  | Message port event => onMessageListener port event w
  | WindowOpened i => windowOpened i w
  | Grant permission => grantPermission permission w
  | Deny permission => denyOrRevokePermission permission w
  | Resume i => resume i w
  end.

Definition run (acts : list Action) (w : World) : World := foldl step w acts.

End ProviderBridgeService.

(** ** The dApp-permission selectors *)

(** The slice [DAppPermissionState] is declared with the reducer; the
    selectors read only its object [permissionRequests], kept here as its
    own properties in the order [Object.values] enumerates them. *)
Record DAppPermissionState := {
  permissionRequests : list (string * PermissionRequest)
}.

Record RootState := {
  dappPermission : DAppPermissionState
}.

Definition Object_values {A} (o : list (string * A)) : list A := o.*2.

Definition getProviderBridgeState (st : RootState) : DAppPermissionState :=
  dappPermission st.

Definition selectPermissionRequests (st : RootState) : list PermissionRequest :=
  Object_values (permissionRequests (getProviderBridgeState st)).

Definition selectPendingPermissionRequests (st : RootState) : list PermissionRequest :=
  filter (λ p, state p = "request") (selectPermissionRequests st).

(** [permissionRequests[0]], which is [undefined] on an empty array. *)
Definition selectCurrentPendingPermission (st : RootState) : option PermissionRequest :=
  selectPendingPermissionRequests st !! 0.

(** ** A concrete setting

    A provider that knows one account and one chain and raises on
    everything else, a browser with one window, and the messages of the
    dApp at [https://dapp.example]. *)

Definition demoProvider : InternalEthereumProviderService :=
  {| routeSafeRPCRequest m ps :=
       if String.eqb m "eth_accounts" then Returned (JArr [JStr "0xA11CE"])
       else if String.eqb m "eth_chainId" then Returned (JStr "0x1")
       else Raised (JStr "unsupported method") |}.

Definition demoBrowser : Browser :=
  {| windows_getCurrent :=
       {| win_left := Some 100%Z; win_top := Some 20%Z; win_width := None |};
     runtime_getURL p := "chrome-extension://tally/" +:+ p;
     ALLOWED_QUERY_PARAM_PAGE_dappConnect := "/dapp-permission" |}.

Definition dappPort : Port :=
  {| sender_url := "https://dapp.example"; sender_tab := None |}.

Definition envelope (i m : string) (ps : list JSON) : PortRequestEvent.t :=
  {| PortRequestEvent.id := i;
     PortRequestEvent.request := {| method := m; params := ps |} |}.

Definition dappRecord (s : string) : PermissionRequest :=
  {| url := "https://dapp.example"; favIconUrl := ""; title := ""; state := s |}.

(** The dApp asked to connect and its popup is open: call [0] waits for
    the user's decision on promise [0]. *)
Definition awaitingConsent : World :=
  @run demoProvider demoBrowser
    [Message dappPort (envelope "1" "eth_requestAccounts" []); WindowOpened 0]
    initial.

(** The user has allowed the dApp; call [0] has not been continued yet. *)
Definition granted : World :=
  @run demoProvider demoBrowser [Grant (dappRecord "allow")] awaitingConsent.

(** The user has turned the dApp down; call [0] has not been continued yet. *)
Definition denied : World :=
  @run demoProvider demoBrowser [Deny (dappRecord "deny")] awaitingConsent.

(** The dApp asked to connect twice while the first popup was open; the
    second popup is not there yet. *)
Definition askedTwice : World :=
  @run demoProvider demoBrowser
    [Message dappPort (envelope "1" "eth_requestAccounts" []); WindowOpened 0;
     Message dappPort (envelope "2" "eth_requestAccounts" [])]
    initial.

Definition firstCaller : Call :=
  {| c_port := dappPort; c_event := envelope "1" "eth_requestAccounts" [];
     c_stage := AwaitConsent 0 |}.

Definition secondCaller : Call :=
  {| c_port := dappPort; c_event := envelope "2" "eth_requestAccounts" [];
     c_stage := AwaitWindow (dappRecord "request") |}.

(** The redux slice once the dApp has been allowed. *)
Definition allowedSlice : RootState :=
  {| dappPermission :=
       {| permissionRequests := [("https://dapp.example", dappRecord "allow")] |} |}.

(** ** Invariants *)

(** Every pending request holds the [resolve] of a promise that exists and
    is not resolved yet, and no two URLs hold the same one. *)
Definition registry_ok (w : World) : Prop :=
  (∀ u n, pendingPermissionsRequests w !! u = Some n → promises w !! n = Some Pending) ∧
  (∀ u1 u2 n, pendingPermissionsRequests w !! u1 = Some n →
              pendingPermissionsRequests w !! u2 = Some n → u1 = u2).

(** Promise [n] is not resolved and no pending request can resolve it. *)
Definition orphan (n : nat) (w : World) : Prop :=
  promises w !! n = Some Pending ∧
  ∀ u, pendingPermissionsRequests w !! u ≠ Some n.

(** A call that has answered did so under the id of its own message, on
    its own port. *)
Definition call_correlated (log : list (Port * PortResponseEvent.t)) (t : Call) : Prop :=
  match c_stage t with
  | Posted r =>
      PortResponseEvent.id r = PortRequestEvent.id (c_event t) ∧ (c_port t, r) ∈ log
  | _ => True
  end.

(** A posted response is the answer of one of the calls. *)
Definition post_owned (ts : list Call) (m : Port * PortResponseEvent.t) : Prop :=
  ∃ i t, ts !! i = Some t ∧ c_port t = m.1 ∧ c_stage t = Posted m.2 ∧
         PortResponseEvent.id m.2 = PortRequestEvent.id (c_event t).

Definition answers_match (ts : list Call) (log : list (Port * PortResponseEvent.t)) : Prop :=
  Forall (call_correlated log) ts ∧ Forall (post_owned ts) log.

Definition correlated (w : World) : Prop := answers_match (calls w) (posted w).

(** The call with index [i], started by [event] on [port], waits for
    promise [n] or has posted, on that port, a response that carries the
    id of [event]. *)
Definition waits_or_answered (i n : nat) (port : Port) (event : PortRequestEvent.t)
    (w : World) : Prop :=
  calls w !! i = Some {| c_port := port; c_event := event; c_stage := AwaitConsent n |} ∨
  ∃ r, calls w !! i = Some {| c_port := port; c_event := event; c_stage := Posted r |} ∧
       PortResponseEvent.id r = PortRequestEvent.id event ∧
       (port, r) ∈ posted w.

(** The [PermissionRequest] the listener builds for a port. *)
Definition permissionRequest_of (port : Port) : PermissionRequest :=
  {| url := sender_url port;
     favIconUrl := default "" (sender_tab port ≫= tab_favIconUrl);
     title := default "" (sender_tab port ≫= tab_title);
     state := "request" |}.

(** ** The listener installed by the constructor *)

(** [EXTERNAL_PORT_NAME] of the shared package. *)
Class ProviderBridgeShared := {
  EXTERNAL_PORT_NAME : string
}.

(** [browser.Runtime.MessageSender] and [browser.Runtime.Port] as the
    constructor receives them: the sender and its fields are optional. *)
Record MessageSender := {
  ms_url : option string;
  ms_tab : option Tab
}.

Record RuntimePort := {
  rp_name : string;
  rp_sender : option MessageSender
}.

Section Constructor.
Context `{shared : ProviderBridgeShared}.
Context `{provider : InternalEthereumProviderService} `{browser : Browser}.

(** The [onConnect] listener: a message listener is added to the port when
    [port.name === EXTERNAL_PORT_NAME && port.sender?.url] is truthy, that
    is when the name matches and the sender has a URL that is not the
    empty string.  The result is the port as that listener sees it. *)
Definition onConnect (port : RuntimePort) : option Port :=
  if String.eqb (rp_name port) EXTERNAL_PORT_NAME then
    match rp_sender port ≫= ms_url with
    | Some u =>
        if String.eqb u "" then None
        else Some {| sender_url := u; sender_tab := rp_sender port ≫= ms_tab |}
    | None => None
    end
  else None.

(** A message arriving on a port that has connected: it reaches
    [onMessageListener] when the listener was added, and nobody otherwise. *)
Definition port_onMessage (port : RuntimePort) (event : PortRequestEvent.t) (w : World) : World :=
  match onConnect port with
  | Some required => onMessageListener required event w
  | None => w
  end.

End Constructor.

(** ** Counting calls *)

Definition is_posted (t : Call) : bool :=
  match c_stage t with Posted _ => true | _ => false end.

Definition awaits_window (t : Call) : bool :=
  match c_stage t with AwaitWindow _ => true | _ => false end.

Definition count_calls (f : Call → bool) (l : list Call) : nat :=
  length (filter (λ t, f t = true) l).

(** ** Further invariants *)

(** A call that got nothing but a bridge error, or no answer yet. *)
Definition errors_only (t : Call) : Prop :=
  match c_stage t with
  | Posted r =>
      PortResponseEvent.result r = BridgeError (new_EIP1193Error unauthorized) ∨
      PortResponseEvent.result r = BridgeError (new_EIP1193Error userRejectedRequest)
  | Rejected _ => False
  | _ => True
  end.

(** The calls waiting for their popup carry the request of their own
    port, and every pending request is awaited by a call of its origin. *)
Definition callers_wait (w : World) : Prop :=
  (∀ i t pr, calls w !! i = Some t → c_stage t = AwaitWindow pr →
     pr = permissionRequest_of (c_port t)) ∧
  (∀ u n, pendingPermissionsRequests w !! u = Some n →
     ∃ i t, calls w !! i = Some t ∧ c_stage t = AwaitConsent n ∧
            sender_url (c_port t) = u).

(** Every notification carries the state [request] and is either still
    waiting for the popup or has registered its promise. *)
Definition consent_ledger (w : World) : Prop :=
  length (emitted w) = length (promises w) + count_calls awaits_window (calls w) ∧
  Forall (λ pr, state pr = "request") (emitted w).

(** ** More of the concrete setting *)

Definition demoShared : ProviderBridgeShared :=
  {| EXTERNAL_PORT_NAME := "tally-external" |}.

(** The port of the dApp as the browser hands it over, and two ports that
    are not listened to: one with another name, one without a sender URL. *)
Definition dappRuntimePort : RuntimePort :=
  {| rp_name := "tally-external";
     rp_sender := Some {| ms_url := Some "https://dapp.example"; ms_tab := None |} |}.

Definition internalRuntimePort : RuntimePort :=
  {| rp_name := "tally-internal";
     rp_sender := Some {| ms_url := Some "https://dapp.example"; ms_tab := None |} |}.

Definition anonymousRuntimePort : RuntimePort :=
  {| rp_name := "tally-external";
     rp_sender := Some {| ms_url := None; ms_tab := None |} |}.

Definition otherPort : Port :=
  {| sender_url := "https://other.example"; sender_tab := None |}.

Definition otherRecord (s : string) : PermissionRequest :=
  {| url := "https://other.example"; favIconUrl := ""; title := ""; state := s |}.

(** A record under a name of the caller's choice. *)
Definition namedRecord (u s : string) : PermissionRequest :=
  {| url := u; favIconUrl := ""; title := ""; state := s |}.

(** A slice with an allowed dApp and two dApps still asking. *)
Definition busySlice : RootState :=
  {| dappPermission :=
       {| permissionRequests :=
            [("https://dapp.example", dappRecord "allow");
             ("https://other.example", otherRecord "request");
             ("https://third.example",
              {| url := "https://third.example"; favIconUrl := ""; title := "";
                 state := "request" |})] |} |}.

(** ** Properties *)

Section Properties.
Context `{provider : InternalEthereumProviderService} `{browser : Browser}.

Lemma routeContentScriptRPCRequest_eq m ps w :
  routeContentScriptRPCRequest m ps w = callProvider (forwarded m) ps w.
Proof.
  unfold routeContentScriptRPCRequest, forwarded.
  destruct (String.eqb_spec m "eth_requestAccounts"); case_decide; done.
Qed.

(** C7: [routeContentScriptRPCRequest] makes exactly one call of the
    provider's [routeSafeRPCRequest] and returns its outcome; the call
    carries the method name with [eth_requestAccounts] rewritten to
    [eth_accounts] and every other name as it is, and the parameters
    unchanged. *)
Theorem dispatch_forwards_with_rewrite (m : string) (ps : list JSON) (w : World) :
  let m' := if decide (m = "eth_requestAccounts") then "eth_accounts" else m in
  (routeContentScriptRPCRequest m ps w).1 = routeSafeRPCRequest m' ps ∧
  providerCalls (routeContentScriptRPCRequest m ps w).2
    = providerCalls w ++ [(m', ps)] ∧
  (routeContentScriptRPCRequest m ps w).2
    = set_providerCalls (λ l, l ++ [(m', ps)]) w.
Proof.
  intros m'. rewrite routeContentScriptRPCRequest_eq. done.
Qed.

Lemma checkPermission_no_record u w :
  allowedPages w !! u = None → checkPermission u w = false.
Proof. unfold checkPermission. by intros ->. Qed.

Lemma onMessageListener_unauthorized port event w :
  checkPermission (sender_url port) w = false →
  method (PortRequestEvent.request event) ≠ "eth_requestAccounts" →
  onMessageListener port event w =
    let response :=
      {| PortResponseEvent.id := PortRequestEvent.id event;
         PortResponseEvent.result := BridgeError (new_EIP1193Error unauthorized) |} in
    spawn port event (Posted response) (port_postMessage port response w).
Proof.
  intros Hc Hm. unfold onMessageListener. rewrite Hc.
  by destruct (String.eqb_spec (method (PortRequestEvent.request event))
                 "eth_requestAccounts").
Qed.

(** C5: a message from an origin without a stored record, for a method
    other than [eth_requestAccounts], is answered at once with the
    [unauthorized] bridge error under the message's id; the call ends
    there without suspending, and the allowed pages, the pending
    requests, the promises, the notifications, the popups and the
    provider are left untouched. *)
Theorem unauthorized_fails_closed (port : Port) (event : PortRequestEvent.t) (w : World) :
  allowedPages w !! sender_url port = None →
  method (PortRequestEvent.request event) ≠ "eth_requestAccounts" →
  let w' := onMessageListener port event w in
  let response :=
    {| PortResponseEvent.id := PortRequestEvent.id event;
       PortResponseEvent.result := BridgeError (new_EIP1193Error unauthorized) |} in
  posted w' = posted w ++ [(port, response)] ∧
  calls w' = calls w ++ [{| c_port := port; c_event := event;
                            c_stage := Posted response |}] ∧
  allowedPages w' = allowedPages w ∧
  pendingPermissionsRequests w' = pendingPermissionsRequests w ∧
  promises w' = promises w ∧
  emitted w' = emitted w ∧
  windows w' = windows w ∧
  providerCalls w' = providerCalls w.
Proof.
  intros Hrec Hm w' response. subst w'.
  rewrite onMessageListener_unauthorized by auto using checkPermission_no_record.
  done.
Qed.

(** *** Granting and revoking *)

Lemma throwing_names_are_inherited k :
  k ∈ ["__proto__"; "__defineGetter__"; "__defineSetter__"] →
  k ∈ Object_prototype_names.
Proof.
  intros Hin.
  repeat (apply elem_of_cons in Hin as [->|Hin];
          [by apply (bool_decide_unpack _)|]).
  by apply elem_of_nil in Hin.
Qed.

(** C3, as the code has it, for a record whose URL is not the name of a
    property of [Object.prototype]: [grantPermission] acts only while a
    consent request is pending for the record's URL.  It then stores the
    record as it was given, resolves the pending promise with it and
    forgets the pending request, so that [checkPermission] answers whether
    the record's state is [allow]; with nothing pending it changes
    nothing.  Granting the same record twice is the same as granting it
    once. *)
Theorem grantPermission_when_pending (r : PermissionRequest) (w : World) :
  (∀ n, pendingPermissionsRequests w !! url r = Some n →
     allowedPages (grantPermission r w) = <[url r := r]> (allowedPages w) ∧
     checkPermission (url r) (grantPermission r w) = bool_decide (state r = "allow") ∧
     pendingPermissionsRequests (grantPermission r w)
       = delete (url r) (pendingPermissionsRequests w) ∧
     promises (grantPermission r w)
       = call_resolve n (WithPermission r) (promises w) ∧
     grantPermission_raises r w = false) ∧
  (pendingPermissionsRequests w !! url r = None → url r ∉ Object_prototype_names →
     grantPermission r w = w ∧ grantPermission_raises r w = false) ∧
  grantPermission r (grantPermission r w) = grantPermission r w.
Proof.
  split_and!.
  - intros n Hn. unfold grantPermission, grantPermission_raises, checkPermission.
    rewrite Hn. simpl. by rewrite lookup_insert_eq.
  - intros Hn Hk. unfold grantPermission, grantPermission_raises, inherited,
      inherited_call_throws. rewrite Hn.
    rewrite (bool_decide_eq_false_2 (url r ∈ Object_prototype_names)) by done.
    split; [done|]. apply bool_decide_eq_false_2. intros Hin.
    by apply Hk, throwing_names_are_inherited.
  - unfold grantPermission at 2 3.
    destruct (pendingPermissionsRequests w !! url r) as [n|] eqn:Hn.
    + unfold grantPermission. simpl. rewrite lookup_delete_eq.
      destruct (inherited (url r)); [|done].
      unfold set_allowedPages. simpl. by rewrite insert_insert_eq.
    + destruct (inherited (url r)) eqn:Hi.
      * unfold grantPermission. simpl. rewrite Hn, Hi.
        unfold set_allowedPages. simpl. by rewrite insert_insert_eq.
      * unfold grantPermission. by rewrite Hn, Hi.
Qed.

(** C4, as the code has it, for a URL that is not the name of a property
    of [Object.prototype]: [denyOrRevokePermission] acts only while a
    consent request is pending for the URL.  It then removes the stored
    record, so that [checkPermission] answers [false], resolves the
    pending promise and forgets the pending request; with nothing pending
    it changes nothing, whether a record is stored or not.  In neither
    case does it raise an error.  Doing it twice is the same as doing it
    once. *)
Theorem denyOrRevokePermission_when_pending (r : PermissionRequest) (w : World) :
  (∀ n, pendingPermissionsRequests w !! url r = Some n →
     allowedPages (denyOrRevokePermission r w) = delete (url r) (allowedPages w) ∧
     checkPermission (url r) (denyOrRevokePermission r w) = false ∧
     pendingPermissionsRequests (denyOrRevokePermission r w)
       = delete (url r) (pendingPermissionsRequests w) ∧
     promises (denyOrRevokePermission r w)
       = call_resolve n (WithText "Time to move on") (promises w) ∧
     denyOrRevokePermission_raises r w = false) ∧
  (pendingPermissionsRequests w !! url r = None → url r ∉ Object_prototype_names →
     denyOrRevokePermission r w = w ∧ denyOrRevokePermission_raises r w = false) ∧
  denyOrRevokePermission r (denyOrRevokePermission r w) = denyOrRevokePermission r w.
Proof.
  split_and!.
  - intros n Hn.
    unfold denyOrRevokePermission, denyOrRevokePermission_raises, checkPermission.
    rewrite Hn. simpl. by rewrite lookup_delete_eq.
  - intros Hn Hk. unfold denyOrRevokePermission, denyOrRevokePermission_raises,
      inherited, inherited_call_throws. rewrite Hn.
    rewrite (bool_decide_eq_false_2 (url r ∈ Object_prototype_names)) by done.
    split; [done|]. apply bool_decide_eq_false_2. intros Hin.
    by apply Hk, throwing_names_are_inherited.
  - unfold denyOrRevokePermission at 2 3.
    destruct (pendingPermissionsRequests w !! url r) as [n|] eqn:Hn.
    + unfold denyOrRevokePermission. simpl. rewrite lookup_delete_eq.
      destruct (inherited (url r) && negb (String.eqb (url r) "__proto__")); [|done].
      unfold set_allowedPages. simpl. by rewrite delete_delete_eq.
    + destruct (inherited (url r) && negb (String.eqb (url r) "__proto__")) eqn:Hi.
      * unfold denyOrRevokePermission. simpl. rewrite Hn, Hi.
        unfold set_allowedPages. simpl. by rewrite delete_delete_eq.
      * unfold denyOrRevokePermission. by rewrite Hn, Hi.
Qed.

(** *** How each operation changes the world *)

Lemma run_cons a acts w : run (a :: acts) w = run acts (step w a).
Proof. done. Qed.

Lemma run_snoc acts a w : run (acts ++ [a]) w = step (run acts w) a.
Proof. unfold run. by rewrite foldl_app. Qed.

Lemma onMessageListener_cases port event w :
  let w' := onMessageListener port event w in
  let m := method (PortRequestEvent.request event) in
  let ps := params (PortRequestEvent.request event) in
  (checkPermission (sender_url port) w = true ∧
     ∃ v, routeSafeRPCRequest (forwarded m) ps = Returned v ∧
       w' = spawn port event
              (Posted {| PortResponseEvent.id := PortRequestEvent.id event;
                         PortResponseEvent.result := Value v |})
              (port_postMessage port
                 {| PortResponseEvent.id := PortRequestEvent.id event;
                    PortResponseEvent.result := Value v |}
                 (set_providerCalls (λ l, l ++ [(forwarded m, ps)]) w))) ∨
  (checkPermission (sender_url port) w = true ∧
     ∃ e, routeSafeRPCRequest (forwarded m) ps = Raised e ∧
       w' = spawn port event (Rejected e)
              (set_providerCalls (λ l, l ++ [(forwarded m, ps)]) w)) ∨
  (checkPermission (sender_url port) w = false ∧ m = "eth_requestAccounts" ∧
     w' = spawn port event (AwaitWindow (permissionRequest_of port))
            (requestPermission_begin (permissionRequest_of port) w)) ∨
  (checkPermission (sender_url port) w = false ∧ m ≠ "eth_requestAccounts" ∧
     w' = spawn port event
            (Posted {| PortResponseEvent.id := PortRequestEvent.id event;
                       PortResponseEvent.result :=
                         BridgeError (new_EIP1193Error unauthorized) |})
            (port_postMessage port
               {| PortResponseEvent.id := PortRequestEvent.id event;
                  PortResponseEvent.result :=
                    BridgeError (new_EIP1193Error unauthorized) |} w)).
Proof.
  intros w' m ps. subst w'. unfold onMessageListener. fold m ps.
  destruct (checkPermission (sender_url port) w) eqn:Hc.
  - rewrite routeContentScriptRPCRequest_eq. unfold callProvider.
    destruct (routeSafeRPCRequest (forwarded m) ps) as [v|e] eqn:Hp.
    + left. eauto.
    + right; left. eauto.
  - destruct (String.eqb_spec m "eth_requestAccounts") as [Hm|Hm].
    + right; right; left. done.
    + right; right; right. done.
Qed.

Lemma windowOpened_cases i w :
  windowOpened i w = w ∨
  ∃ t pr, calls w !! i = Some t ∧ c_stage t = AwaitWindow pr ∧
    windowOpened i w =
      set_stage i t (AwaitConsent (length (promises w)))
        (set_pending (λ m, <[url pr := length (promises w)]> m)
           (set_promises (λ l, l ++ [Pending]) w)).
Proof.
  unfold windowOpened.
  destruct (calls w !! i) as [t|] eqn:Ht; [|by left].
  destruct (c_stage t) as [pr| | |] eqn:Hs; try by left.
  right. by exists t, pr.
Qed.

Lemma resume_cases i w :
  resume i w = w ∨
  ∃ t n v r, calls w !! i = Some t ∧ c_stage t = AwaitConsent n ∧
    promises w !! n = Some (Resolved v) ∧
    PortResponseEvent.id r = PortRequestEvent.id (c_event t) ∧
    PortResponseEvent.result r =
      (if checkPermission (sender_url (c_port t)) w then Value (JArr [])
       else BridgeError (new_EIP1193Error userRejectedRequest)) ∧
    resume i w = set_stage i t (Posted r) (port_postMessage (c_port t) r w).
Proof.
  unfold resume.
  destruct (calls w !! i) as [t|] eqn:Ht; [|by left].
  destruct (c_stage t) as [|n| |] eqn:Hs; try by left.
  destruct (promises w !! n) as [[|v]|] eqn:Hn; try by left.
  right. eexists t, n, v, _. split_and!; [done|done|done| | |reflexivity].
  - by destruct (checkPermission (sender_url (c_port t)) w).
  - by destruct (checkPermission (sender_url (c_port t)) w).
Qed.

Lemma grantPermission_cases r w :
  grantPermission r w = w ∨
  (∃ n, pendingPermissionsRequests w !! url r = Some n ∧
     grantPermission r w =
       set_pending (λ m, delete (url r) m)
         (set_promises (call_resolve n (WithPermission r))
            (set_allowedPages (λ m, <[url r := r]> m) w))) ∨
  (pendingPermissionsRequests w !! url r = None ∧
   grantPermission r w = set_allowedPages (λ m, <[url r := r]> m) w).
Proof.
  unfold grantPermission.
  destruct (pendingPermissionsRequests w !! url r) as [n|]; [eauto|].
  destruct (inherited (url r)); eauto.
Qed.

Lemma denyOrRevokePermission_cases r w :
  denyOrRevokePermission r w = w ∨
  (∃ n, pendingPermissionsRequests w !! url r = Some n ∧
     denyOrRevokePermission r w =
       set_pending (λ m, delete (url r) m)
         (set_promises (call_resolve n (WithText "Time to move on"))
            (set_allowedPages (λ m, delete (url r) m) w))) ∨
  (pendingPermissionsRequests w !! url r = None ∧
   denyOrRevokePermission r w = set_allowedPages (λ m, delete (url r) m) w).
Proof.
  unfold denyOrRevokePermission.
  destruct (pendingPermissionsRequests w !! url r) as [n|]; [eauto|].
  destruct (inherited (url r) && negb (String.eqb (url r) "__proto__")); eauto.
Qed.

Lemma call_resolve_resolved n m v v' ps :
  ps !! n = Some (Resolved v) → call_resolve m v' ps !! n = Some (Resolved v).
Proof.
  intros Hn. unfold call_resolve.
  destruct (ps !! m) as [[|?]|] eqn:Hm; try done.
  rewrite list_lookup_insert_ne; [done|]. intros ->. congruence.
Qed.

Lemma call_resolve_other n m v' ps :
  n ≠ m → call_resolve m v' ps !! n = ps !! n.
Proof.
  intros Hne. unfold call_resolve.
  destruct (ps !! m) as [[|?]|]; try done.
  by rewrite list_lookup_insert_ne.
Qed.

(** The [Message] step only adds a call; the service's own state is
    as before. *)
Lemma onMessageListener_state port event w :
  allowedPages (onMessageListener port event w) = allowedPages w ∧
  pendingPermissionsRequests (onMessageListener port event w)
    = pendingPermissionsRequests w ∧
  promises (onMessageListener port event w) = promises w ∧
  ∃ s, calls (onMessageListener port event w)
       = calls w ++ [{| c_port := port; c_event := event; c_stage := s |}].
Proof.
  destruct (onMessageListener_cases port event w)
    as [(_ & v & _ & ->)|[(_ & e & _ & ->)|[(_ & _ & ->)|(_ & _ & ->)]]];
    simpl; eauto.
Qed.

(** A resolved promise stays resolved with the same value. *)
Lemma step_resolved_stable w a n v :
  promises w !! n = Some (Resolved v) →
  promises (step w a) !! n = Some (Resolved v).
Proof.
  intros Hn. destruct a as [port event|i|r|r|i]; simpl.
  - destruct (onMessageListener_state port event w) as (_ & _ & -> & _). done.
  - destruct (windowOpened_cases i w) as [->|(t & pr & _ & _ & ->)]; [done|].
    simpl. by apply lookup_app_l_Some.
  - destruct (grantPermission_cases r w) as [->|[(m & _ & ->)|(_ & ->)]]; [done| |done].
    simpl. by apply call_resolve_resolved.
  - destruct (denyOrRevokePermission_cases r w) as [->|[(m & _ & ->)|(_ & ->)]]; [done| |done].
    simpl. by apply call_resolve_resolved.
  - destruct (resume_cases i w) as [->|(t & m & v' & r & _ & _ & _ & _ & _ & ->)]; done.
Qed.

(** A call that waits for consent is not touched by a step after which
    its promise is still not resolved. *)
Lemma step_keeps_suspended w a i t n :
  calls w !! i = Some t → c_stage t = AwaitConsent n →
  (∀ v, promises (step w a) !! n ≠ Some (Resolved v)) →
  calls (step w a) !! i = Some t.
Proof.
  intros Ht Hs Hn. destruct a as [port event|j|r|r|j]; simpl in *.
  - destruct (onMessageListener_state port event w) as (_ & _ & _ & s & ->).
    by apply lookup_app_l_Some.
  - destruct (windowOpened_cases j w) as [->|(t' & pr & Ht' & Hs' & ->)]; [done|].
    simpl. rewrite list_lookup_insert_ne; [done|]. intros ->. congruence.
  - destruct (grantPermission_cases r w) as [->|[(m & _ & ->)|(_ & ->)]]; done.
  - destruct (denyOrRevokePermission_cases r w) as [->|[(m & _ & ->)|(_ & ->)]]; done.
  - destruct (resume_cases j w)
      as [Heq|(t' & m & v' & r & Ht' & Hs' & Hm & _ & _ & Heq)];
      rewrite Heq in *; [done|].
    simpl. rewrite list_lookup_insert_ne; [done|]. intros ->.
    rewrite Ht in Ht'. injection Ht' as <-. rewrite Hs in Hs'. injection Hs' as <-.
    by apply (Hn v').
Qed.

Lemma run_keeps_suspended acts w i t n :
  calls w !! i = Some t → c_stage t = AwaitConsent n →
  (∀ v, promises (run acts w) !! n ≠ Some (Resolved v)) →
  calls (run acts w) !! i = Some t.
Proof.
  revert w. induction acts as [|a acts IH]; intros w Ht Hs Hn; [done|].
  rewrite run_cons in *. apply IH; [|done|done].
  apply (step_keeps_suspended _ _ _ _ n); [done|done|].
  intros v Hv. apply (Hn v). clear -Hv.
  revert Hv. generalize (step w a). induction acts as [|b acts IH]; intros w' Hv; [done|].
  rewrite run_cons. apply IH. by apply step_resolved_stable.
Qed.

(** *** The consent flow *)

Lemma onMessageListener_connect port event w :
  checkPermission (sender_url port) w = false →
  method (PortRequestEvent.request event) = "eth_requestAccounts" →
  onMessageListener port event w =
    spawn port event (AwaitWindow (permissionRequest_of port))
      (requestPermission_begin (permissionRequest_of port) w).
Proof.
  intros Hc Hm.
  destruct (onMessageListener_cases port event w)
    as [(Hc' & _)|[(Hc' & _)|[(_ & _ & ->)|(_ & Hm' & _)]]]; congruence.
Qed.

Lemma windowOpened_after_connect port event w :
  checkPermission (sender_url port) w = false →
  method (PortRequestEvent.request event) = "eth_requestAccounts" →
  windowOpened (length (calls w)) (onMessageListener port event w) =
    set_calls (λ _, calls w ++ [{| c_port := port; c_event := event;
                                   c_stage := AwaitConsent (length (promises w)) |}])
      (set_pending (λ m, <[sender_url port := length (promises w)]> m)
         (set_promises (λ l, l ++ [Pending])
            (requestPermission_begin (permissionRequest_of port) w))).
Proof.
  intros Hc Hm. rewrite onMessageListener_connect by done.
  unfold windowOpened. simpl.
  rewrite lookup_app_r, Nat.sub_diag by done. simpl.
  unfold set_stage, set_calls. simpl. f_equal.
  rewrite insert_app_r_alt, Nat.sub_diag by done. done.
Qed.

Lemma resume_resolved i t n v w :
  calls w !! i = Some t → c_stage t = AwaitConsent n →
  promises w !! n = Some (Resolved v) →
  let r := {| PortResponseEvent.id := PortRequestEvent.id (c_event t);
              PortResponseEvent.result :=
                if checkPermission (sender_url (c_port t)) w then Value (JArr [])
                else BridgeError (new_EIP1193Error userRejectedRequest) |} in
  resume i w = set_stage i t (Posted r) (port_postMessage (c_port t) r w).
Proof.
  intros Ht Hs Hn r. unfold resume. rewrite Ht, Hs, Hn. subst r.
  by destruct (checkPermission (sender_url (c_port t)) w).
Qed.

(** C6: a connection request from an origin without a stored record
    emits one [requestPermission] notification, carrying the request
    built for the port with state [request]; once the popup is there it
    registers one pending request for the origin, on a fresh promise;
    nothing is posted meanwhile.  Whatever happens afterwards, the call
    stays suspended as long as that promise is not resolved; granting or
    denying the origin resolves it, and the call then continues to its
    response. *)
Theorem connection_request_suspends_for_consent
    (port : Port) (event : PortRequestEvent.t) (w : World) :
  allowedPages w !! sender_url port = None →
  method (PortRequestEvent.request event) = "eth_requestAccounts" →
  let i := length (calls w) in
  let n := length (promises w) in
  let w1 := onMessageListener port event w in
  let w2 := windowOpened i w1 in
  let waiting :=
    {| c_port := port; c_event := event; c_stage := AwaitConsent n |} in
  (emitted w1 = emitted w ++ [permissionRequest_of port] ∧
   emitted w2 = emitted w1 ∧
   url (permissionRequest_of port) = sender_url port ∧
   state (permissionRequest_of port) = "request") ∧
  (pendingPermissionsRequests w1 = pendingPermissionsRequests w ∧
   pendingPermissionsRequests w2
     = <[sender_url port := n]> (pendingPermissionsRequests w) ∧
   promises w2 = promises w ++ [Pending]) ∧
  (posted w1 = posted w ∧ posted w2 = posted w ∧
   calls w2 = calls w ++ [waiting]) ∧
  (∀ acts, (∀ v, promises (run acts w2) !! n ≠ Some (Resolved v)) →
           calls (run acts w2) !! i = Some waiting) ∧
  (∀ r, url r = sender_url port →
        promises (grantPermission r w2) !! n = Some (Resolved (WithPermission r)) ∧
        promises (denyOrRevokePermission r w2) !! n
          = Some (Resolved (WithText "Time to move on"))) ∧
  (∀ w3 v, calls w3 !! i = Some waiting →
           promises w3 !! n = Some (Resolved v) →
           ∃ r, posted (resume i w3) = posted w3 ++ [(port, r)] ∧
                calls (resume i w3) !! i
                  = Some {| c_port := port; c_event := event; c_stage := Posted r |}).
Proof.
  intros Hrec Hm i n w1 w2 waiting.
  pose proof (checkPermission_no_record _ _ Hrec) as Hc.
  assert (Hw1 : w1 = spawn port event (AwaitWindow (permissionRequest_of port))
                       (requestPermission_begin (permissionRequest_of port) w))
    by (by apply onMessageListener_connect).
  assert (Hw2 : w2 = set_calls (λ _, calls w ++ [waiting])
      (set_pending (λ m, <[sender_url port := n]> m)
         (set_promises (λ l, l ++ [Pending])
            (requestPermission_begin (permissionRequest_of port) w))))
    by (by apply windowOpened_after_connect).
  assert (Hi : calls w2 !! i = Some waiting).
  { rewrite Hw2. simpl. subst i. by rewrite lookup_app_r, Nat.sub_diag. }
  split_and!; try (rewrite ?Hw2, ?Hw1; done).
  - intros acts Hn. by apply (run_keeps_suspended _ _ _ _ n).
  - intros r Hr.
    assert (Hp : pendingPermissionsRequests w2 !! url r = Some n)
      by (rewrite Hw2, Hr; simpl; apply lookup_insert_eq).
    assert (Hn : promises w2 !! n = Some Pending)
      by (rewrite Hw2; simpl; subst n; by rewrite lookup_app_r, Nat.sub_diag).
    assert (Hlt : n < length (promises w2)) by (by eapply lookup_lt_Some).
    unfold grantPermission, denyOrRevokePermission. rewrite Hp. simpl.
    unfold call_resolve. rewrite Hn.
    by rewrite !list_lookup_insert_eq.
  - intros w3 v Ht Hv.
    rewrite (resume_resolved i waiting n v) by done. simpl.
    eexists. split; [done|].
    apply list_lookup_insert_eq. by eapply lookup_lt_Some.
Qed.

(** *** The registry of pending requests *)

Lemma step_registry_ok w a : registry_ok w → registry_ok (step w a).
Proof.
  intros [Ha Hb]. destruct a as [port event|i|r|r|i]; simpl.
  - destruct (onMessageListener_state port event w) as (_ & Hp & Hq & _).
    unfold registry_ok. rewrite Hp, Hq. done.
  - destruct (windowOpened_cases i w) as [->|(t & pr & _ & _ & ->)]; [done|].
    split; simpl.
    + intros u n. rewrite lookup_insert. case_decide.
      * intros [= <-]. by rewrite lookup_app_r, Nat.sub_diag.
      * intros Hu. apply lookup_app_l_Some. eauto.
    + intros u1 u2 n. rewrite !lookup_insert.
      repeat case_decide; try congruence; intros H1' H2'; simplify_eq.
      * apply Ha, lookup_lt_Some in H2'. lia.
      * apply Ha, lookup_lt_Some in H1'. lia.
      * eauto.
  - destruct (grantPermission_cases r w) as [->|[(m & Hm & ->)|(Hm & ->)]]; [done| |done].
    split; simpl.
    + intros u n. rewrite lookup_delete. case_decide; [done|]. intros Hu.
      rewrite call_resolve_other; [eauto|]. intros ->. eauto.
    + intros u1 u2 n. rewrite !lookup_delete.
      repeat case_decide; try done. eauto.
  - destruct (denyOrRevokePermission_cases r w) as [->|[(m & Hm & ->)|(Hm & ->)]]; [done| |done].
    split; simpl.
    + intros u n. rewrite lookup_delete. case_decide; [done|]. intros Hu.
      rewrite call_resolve_other; [eauto|]. intros ->. eauto.
    + intros u1 u2 n. rewrite !lookup_delete.
      repeat case_decide; try done. eauto.
  - destruct (resume_cases i w) as [->|(t & m & v' & r & _ & _ & _ & _ & _ & ->)]; done.
Qed.

Lemma reachable_registry_ok acts : registry_ok (run acts initial).
Proof.
  induction acts as [|a acts IH] using rev_ind.
  - split; simpl; intros *; by rewrite lookup_empty.
  - rewrite run_snoc. by apply step_registry_ok.
Qed.

Lemma step_orphan n w a : orphan n w → orphan n (step w a).
Proof.
  intros [Hn Hu]. destruct a as [port event|i|r|r|i]; simpl.
  - destruct (onMessageListener_state port event w) as (_ & Hp & Hq & _).
    unfold orphan. rewrite Hp, Hq. done.
  - destruct (windowOpened_cases i w) as [->|(t & pr & _ & _ & ->)]; [done|].
    split; simpl.
    + by apply lookup_app_l_Some.
    + intros u. rewrite lookup_insert. case_decide; [|done].
      intros [= <-]. apply lookup_lt_Some in Hn. lia.
  - destruct (grantPermission_cases r w) as [->|[(m & Hm & ->)|(Hm & ->)]]; [done| |done].
    split; simpl.
    + rewrite call_resolve_other; [done|]. intros ->. by apply (Hu (url r)).
    + intros u. rewrite lookup_delete. case_decide; done.
  - destruct (denyOrRevokePermission_cases r w) as [->|[(m & Hm & ->)|(Hm & ->)]]; [done| |done].
    split; simpl.
    + rewrite call_resolve_other; [done|]. intros ->. by apply (Hu (url r)).
    + intros u. rewrite lookup_delete. case_decide; done.
  - destruct (resume_cases i w) as [->|(t & m & v' & r & _ & _ & _ & _ & _ & ->)]; done.
Qed.

Lemma run_orphan n acts w : orphan n w → orphan n (run acts w).
Proof.
  revert w. induction acts as [|a acts IH]; intros w Hw; [done|].
  rewrite run_cons. by apply IH, step_orphan.
Qed.

(** C9: the registry holds one [resolve] per URL.  When a call waits on
    the promise registered for a URL and a second call registers for the
    same URL, the entry now holds the second call's fresh promise and no
    entry holds the first one any more; from then on, whatever happens,
    the first promise is never resolved and the first call stays
    suspended where it was. *)
Theorem second_registration_orphans_first
    (acts0 : list Action) (i j n : nat) (t tj : Call) (pr : PermissionRequest) :
  let w := run acts0 initial in
  calls w !! i = Some t → c_stage t = AwaitConsent n →
  pendingPermissionsRequests w !! url pr = Some n →
  calls w !! j = Some tj → c_stage tj = AwaitWindow pr →
  let w' := windowOpened j w in
  let n' := length (promises w) in
  pendingPermissionsRequests w' = <[url pr := n']> (pendingPermissionsRequests w) ∧
  pendingPermissionsRequests w' !! url pr = Some n' ∧
  n' ≠ n ∧
  calls w' !! j = Some {| c_port := c_port tj; c_event := c_event tj;
                          c_stage := AwaitConsent n' |} ∧
  (∀ u, pendingPermissionsRequests w' !! u ≠ Some n) ∧
  ∀ acts, promises (run acts w') !! n = Some Pending ∧
          calls (run acts w') !! i = Some t.
Proof.
  intros w Ht Hs Hp Htj Hsj w' n'.
  destruct (reachable_registry_ok acts0) as [Ha Hb]. fold w in Ha, Hb.
  assert (Hw' : w' = set_stage j tj (AwaitConsent n')
                       (set_pending (λ m, <[url pr := n']> m)
                          (set_promises (λ l, l ++ [Pending]) w))).
  { subst w'. unfold windowOpened. by rewrite Htj, Hsj. }
  assert (Hn : promises w !! n = Some Pending) by eauto.
  assert (Hne : n' ≠ n) by (apply lookup_lt_Some in Hn; subst n'; lia).
  assert (Hij : i ≠ j) by (intros ->; congruence).
  assert (Horph : orphan n w').
  { rewrite Hw'. split; simpl.
    - by apply lookup_app_l_Some.
    - intros u. rewrite lookup_insert. case_decide; [congruence|].
      intros Hu. by specialize (Hb _ _ _ Hu Hp). }
  assert (Hi : calls w' !! i = Some t).
  { rewrite Hw'. simpl. by rewrite list_lookup_insert_ne. }
  split_and!.
  - by rewrite Hw'.
  - rewrite Hw'. simpl. apply lookup_insert_eq.
  - done.
  - rewrite Hw'. simpl. apply list_lookup_insert_eq. by eapply lookup_lt_Some.
  - apply Horph.
  - intros acts. pose proof (run_orphan n acts w' Horph) as [Hpn _].
    split; [done|].
    apply (run_keeps_suspended _ _ _ _ n); [done|done|].
    intros v. by rewrite Hpn.
Qed.

(** *** Correlation of responses *)

Lemma call_correlated_mono log l t :
  call_correlated log t → call_correlated (log ++ l) t.
Proof.
  unfold call_correlated. destruct (c_stage t); try done.
  intros [? ?]. split; [done|]. apply elem_of_app. by left.
Qed.

Lemma post_owned_app ts l m : post_owned ts m → post_owned (ts ++ l) m.
Proof.
  intros (k & t & Hk & ?). exists k, t. split; [|done]. by apply lookup_app_l_Some.
Qed.

Lemma post_owned_insert ts i t0 t m :
  ts !! i = Some t0 → (∀ r, c_stage t0 ≠ Posted r) →
  post_owned ts m → post_owned (<[i := t]> ts) m.
Proof.
  intros Hi Hs (k & t' & Hk & Hp & Hst & Hid). exists k, t'. split; [|done].
  rewrite list_lookup_insert_ne; [done|]. intros ->.
  rewrite Hi in Hk. injection Hk as ->. by destruct (Hs m.2).
Qed.

Lemma answers_match_spawn_quiet ts log t :
  (∀ r, c_stage t ≠ Posted r) →
  answers_match ts log → answers_match (ts ++ [t]) log.
Proof.
  intros Hs [Ht Hl]. split.
  - apply Forall_app. split; [done|]. apply Forall_singleton.
    unfold call_correlated. destruct (c_stage t) eqn:E; try done. by destruct (Hs response).
  - eapply Forall_impl; [done|]. intros m. apply post_owned_app.
Qed.

Lemma answers_match_spawn_post ts log t r :
  c_stage t = Posted r →
  PortResponseEvent.id r = PortRequestEvent.id (c_event t) →
  answers_match ts log → answers_match (ts ++ [t]) (log ++ [(c_port t, r)]).
Proof.
  intros Hs Hid [Ht Hl]. split.
  - apply Forall_app. split.
    + eapply Forall_impl; [done|]. intros t'. apply call_correlated_mono.
    + apply Forall_singleton. unfold call_correlated. rewrite Hs.
      split; [done|]. apply elem_of_app. right. by apply list_elem_of_singleton.
  - apply Forall_app. split.
    + eapply Forall_impl; [done|]. intros m. apply post_owned_app.
    + apply Forall_singleton. exists (length ts), t.
      split; [|done]. by rewrite lookup_app_r, Nat.sub_diag.
Qed.

Lemma answers_match_update_quiet ts log i t0 t :
  ts !! i = Some t0 → (∀ r, c_stage t0 ≠ Posted r) → (∀ r, c_stage t ≠ Posted r) →
  answers_match ts log → answers_match (<[i := t]> ts) log.
Proof.
  intros Hi Hs0 Hs [Ht Hl]. split.
  - apply Forall_insert; [done|].
    unfold call_correlated. destruct (c_stage t) eqn:E; try done. by destruct (Hs response).
  - eapply Forall_impl; [done|]. intros m. by apply (post_owned_insert _ _ t0).
Qed.

Lemma answers_match_update_post ts log i t0 t r :
  ts !! i = Some t0 → (∀ r, c_stage t0 ≠ Posted r) →
  c_stage t = Posted r →
  PortResponseEvent.id r = PortRequestEvent.id (c_event t) →
  answers_match ts log → answers_match (<[i := t]> ts) (log ++ [(c_port t, r)]).
Proof.
  intros Hi Hs0 Hs Hid [Ht Hl]. split.
  - apply Forall_insert.
    + eapply Forall_impl; [done|]. intros t'. apply call_correlated_mono.
    + unfold call_correlated. rewrite Hs.
      split; [done|]. apply elem_of_app. right. by apply list_elem_of_singleton.
  - apply Forall_app. split.
    + eapply Forall_impl; [done|]. intros m. by apply (post_owned_insert _ _ t0).
    + apply Forall_singleton. exists i, t. split; [|done].
      apply list_lookup_insert_eq. by eapply lookup_lt_Some.
Qed.

Lemma step_correlated w a : correlated w → correlated (step w a).
Proof.
  unfold correlated. intros Hw. destruct a as [port event|i|r|r|i]; simpl.
  - destruct (onMessageListener_cases port event w)
      as [(_ & v & _ & ->)|[(_ & e & _ & ->)|[(_ & _ & ->)|(_ & _ & ->)]]]; simpl.
    + by apply (answers_match_spawn_post _ _
                  {| c_port := port; c_event := event; c_stage := Posted _ |}).
    + by apply answers_match_spawn_quiet.
    + by apply answers_match_spawn_quiet.
    + by apply (answers_match_spawn_post _ _
                  {| c_port := port; c_event := event; c_stage := Posted _ |}).
  - destruct (windowOpened_cases i w) as [->|(t & pr & Ht & Hs & ->)]; [done|].
    simpl. apply (answers_match_update_quiet _ _ _ t); try done.
    intros r. by rewrite Hs.
  - destruct (grantPermission_cases r w) as [->|[(m & _ & ->)|(_ & ->)]]; done.
  - destruct (denyOrRevokePermission_cases r w) as [->|[(m & _ & ->)|(_ & ->)]]; done.
  - destruct (resume_cases i w)
      as [->|(t & m & v' & r & Ht & Hs & _ & Hid & _ & ->)]; [done|].
    simpl.
    apply (answers_match_update_post _ _ _ t
             {| c_port := c_port t; c_event := c_event t; c_stage := Posted r |});
      try done.
    intros r'. by rewrite Hs.
Qed.

Lemma reachable_correlated acts : correlated (run acts initial).
Proof.
  induction acts as [|a acts IH] using rev_ind.
  - split; apply Forall_nil_2.
  - rewrite run_snoc. by apply step_correlated.
Qed.

Lemma step_posted_grows w a m : m ∈ posted w → m ∈ posted (step w a).
Proof.
  intros Hm. destruct a as [port event|i|r|r|i]; simpl.
  - destruct (onMessageListener_cases port event w)
      as [(_ & v & _ & ->)|[(_ & e & _ & ->)|[(_ & _ & ->)|(_ & _ & ->)]]]; simpl;
      try done; apply elem_of_app; by left.
  - destruct (windowOpened_cases i w) as [->|(t & pr & _ & _ & ->)]; done.
  - destruct (grantPermission_cases r w) as [->|[(n & _ & ->)|(_ & ->)]]; done.
  - destruct (denyOrRevokePermission_cases r w) as [->|[(n & _ & ->)|(_ & ->)]]; done.
  - destruct (resume_cases i w) as [->|(t & n & v' & r & _ & _ & _ & _ & _ & ->)];
      [done|]. simpl. apply elem_of_app. by left.
Qed.

Lemma step_calls_other w a i t :
  calls w !! i = Some t → (∀ pr, c_stage t ≠ AwaitWindow pr) →
  (∀ n, c_stage t ≠ AwaitConsent n) →
  calls (step w a) !! i = Some t.
Proof.
  intros Ht Hw Hc. destruct a as [port event|j|r|r|j]; simpl.
  - destruct (onMessageListener_state port event w) as (_ & _ & _ & s & ->).
    by apply lookup_app_l_Some.
  - destruct (windowOpened_cases j w) as [->|(t' & pr & Ht' & Hs' & ->)]; [done|].
    simpl. rewrite list_lookup_insert_ne; [done|]. intros ->.
    rewrite Ht in Ht'. injection Ht' as <-. by destruct (Hw pr).
  - destruct (grantPermission_cases r w) as [->|[(n & _ & ->)|(_ & ->)]]; done.
  - destruct (denyOrRevokePermission_cases r w) as [->|[(n & _ & ->)|(_ & ->)]]; done.
  - destruct (resume_cases j w)
      as [->|(t' & n & v' & r & Ht' & Hs' & _ & _ & _ & ->)]; [done|].
    simpl. rewrite list_lookup_insert_ne; [done|]. intros ->.
    rewrite Ht in Ht'. injection Ht' as <-. by destruct (Hc n).
Qed.

Lemma step_waits_or_answered i n port event w a :
  waits_or_answered i n port event w → waits_or_answered i n port event (step w a).
Proof.
  intros [Hw|(r & Hr & Hid & Hin)].
  - destruct a as [port' event'|j|r|r|j]; simpl.
    + left. destruct (onMessageListener_state port' event' w) as (_ & _ & _ & s & ->).
      by apply lookup_app_l_Some.
    + left.
      destruct (windowOpened_cases j w) as [->|(t' & pr & Ht' & Hs' & ->)]; [done|].
      simpl. rewrite list_lookup_insert_ne; [done|]. intros ->.
      rewrite Hw in Ht'. by injection Ht' as <-.
    + left.
      destruct (grantPermission_cases r w) as [->|[(k & _ & ->)|(_ & ->)]]; done.
    + left.
      destruct (denyOrRevokePermission_cases r w) as [->|[(k & _ & ->)|(_ & ->)]]; done.
    + destruct (decide (j = i)) as [->|Hne].
      * destruct (promises w !! n) as [[|v]|] eqn:Hn.
        -- left. unfold resume. rewrite Hw. simpl. by rewrite Hn.
        -- right. rewrite (resume_resolved i _ n v w Hw eq_refl Hn). simpl.
           eexists. split_and!.
           ++ apply list_lookup_insert_eq. by eapply lookup_lt_Some.
           ++ done.
           ++ apply elem_of_app. right. by apply list_elem_of_singleton.
        -- left. unfold resume. rewrite Hw. simpl. by rewrite Hn.
      * left. destruct (resume_cases j w)
          as [->|(t' & k & v' & r & Ht' & _ & _ & _ & _ & ->)]; [done|].
        simpl. by rewrite list_lookup_insert_ne.
  - right. exists r. split_and!; [|done|by apply step_posted_grows].
    by apply step_calls_other.
Qed.

Lemma run_waits_or_answered i n port event acts w :
  waits_or_answered i n port event w →
  waits_or_answered i n port event (run acts w).
Proof.
  revert w. induction acts as [|a acts IH]; intros w Hw; [done|].
  rewrite run_cons. by apply IH, step_waits_or_answered.
Qed.

(** The user's decision resolves the promise, and the call that waits on
    it then posts its response. *)
Lemma resume_after_decision i n t r w :
  calls w !! i = Some t → c_stage t = AwaitConsent n →
  pendingPermissionsRequests w !! url r = Some n →
  promises w !! n = Some Pending →
  (∃ response,
     posted (resume i (grantPermission r w)) = posted w ++ [(c_port t, response)] ∧
     PortResponseEvent.id response = PortRequestEvent.id (c_event t)) ∧
  (url r = sender_url (c_port t) →
   posted (resume i (denyOrRevokePermission r w)) =
     posted w ++ [(c_port t,
                   {| PortResponseEvent.id := PortRequestEvent.id (c_event t);
                      PortResponseEvent.result :=
                        BridgeError (new_EIP1193Error userRejectedRequest) |})]).
Proof.
  intros Ht Hs Hp Hn.
  assert (Hres : ∀ v, call_resolve n v (promises w) !! n = Some (Resolved v)).
  { intros v. unfold call_resolve. rewrite Hn.
    apply list_lookup_insert_eq. by eapply lookup_lt_Some. }
  split.
  - unfold grantPermission. rewrite Hp.
    rewrite (resume_resolved i t n (WithPermission r)); [|done|done|apply Hres].
    simpl. eauto.
  - intros Hr. unfold denyOrRevokePermission. rewrite Hp.
    rewrite (resume_resolved i t n (WithText "Time to move on"));
      [|done|done|apply Hres].
    unfold checkPermission. simpl. by rewrite <- Hr, lookup_delete_eq.
Qed.

(** C8: the response to a message with id [X] carries the id [X] in every
    branch, and every branch that answers produces it.  An allowed sender
    whose request the provider answers, and a sender that is not allowed
    and asks for anything but a connection, get it at once.  A sender
    that asks to connect gets it when the call continues after the user's
    decision: after a grant or a denial of its origin, and, whatever else
    happens in between, as soon as its promise is resolved.  Besides, in
    every world the service can reach, each response held by a call has
    the id of the call's message and was posted on the call's port, and
    each posted response is the answer of such a call. *)
Theorem response_id_is_request_id (port : Port) (event : PortRequestEvent.t) (w : World) :
  let X := PortRequestEvent.id event in
  let m := method (PortRequestEvent.request event) in
  let ps := params (PortRequestEvent.request event) in
  let i := length (calls w) in
  let n := length (promises w) in
  let w1 := onMessageListener port event w in
  let w2 := windowOpened i w1 in
  (checkPermission (sender_url port) w = true →
   ∀ v, routeSafeRPCRequest (forwarded m) ps = Returned v →
     posted w1 = posted w ++ [(port, {| PortResponseEvent.id := X;
                                        PortResponseEvent.result := Value v |})]) ∧
  (checkPermission (sender_url port) w = false → m ≠ "eth_requestAccounts" →
     posted w1 = posted w ++ [(port, {| PortResponseEvent.id := X;
                                        PortResponseEvent.result :=
                                          BridgeError (new_EIP1193Error unauthorized) |})]) ∧
  (checkPermission (sender_url port) w = false → m = "eth_requestAccounts" →
     (∀ r, url r = sender_url port →
        (∃ response,
           posted (resume i (grantPermission r w2)) = posted w2 ++ [(port, response)] ∧
           PortResponseEvent.id response = X) ∧
        posted (resume i (denyOrRevokePermission r w2)) =
          posted w2 ++ [(port, {| PortResponseEvent.id := X;
                                  PortResponseEvent.result :=
                                    BridgeError (new_EIP1193Error userRejectedRequest) |})]) ∧
     (∀ acts v, promises (run acts w2) !! n = Some (Resolved v) →
        ∃ response,
          calls (resume i (run acts w2)) !! i
            = Some {| c_port := port; c_event := event; c_stage := Posted response |} ∧
          PortResponseEvent.id response = X ∧
          (port, response) ∈ posted (resume i (run acts w2)))) ∧
  (∀ acts,
     (∀ j t r, calls (run acts initial) !! j = Some t → c_stage t = Posted r →
        PortResponseEvent.id r = PortRequestEvent.id (c_event t) ∧
        (c_port t, r) ∈ posted (run acts initial)) ∧
     (∀ port' r, (port', r) ∈ posted (run acts initial) →
        ∃ j t, calls (run acts initial) !! j = Some t ∧ c_port t = port' ∧
               c_stage t = Posted r ∧
               PortResponseEvent.id r = PortRequestEvent.id (c_event t))).
Proof.
  intros X m ps i n w1 w2. split_and!.
  - intros Hc v Hv. subst w1 m ps.
    destruct (onMessageListener_cases port event w)
      as [(_ & v' & Hv' & ->)|[(_ & e & He & ->)|[(Hc' & _)|(Hc' & _)]]];
      try congruence.
    rewrite Hv in Hv'. by injection Hv' as <-.
  - intros Hc Hm. subst w1. by rewrite onMessageListener_unauthorized.
  - intros Hc Hm.
    set (waiting := {| c_port := port; c_event := event; c_stage := AwaitConsent n |}).
    assert (Hw2 : w2 = set_calls (λ _, calls w ++ [waiting])
        (set_pending (λ k, <[sender_url port := n]> k)
           (set_promises (λ l, l ++ [Pending])
              (requestPermission_begin (permissionRequest_of port) w))))
      by (by apply windowOpened_after_connect).
    assert (Hi : calls w2 !! i = Some waiting).
    { rewrite Hw2. simpl. subst i. by rewrite lookup_app_r, Nat.sub_diag. }
    assert (Hn : promises w2 !! n = Some Pending).
    { rewrite Hw2. simpl. subst n. by rewrite lookup_app_r, Nat.sub_diag. }
    split.
    + intros r Hr.
      assert (Hp : pendingPermissionsRequests w2 !! url r = Some n).
      { rewrite Hw2, Hr. simpl. apply lookup_insert_eq. }
      destruct (resume_after_decision i n waiting r w2 Hi eq_refl Hp Hn)
        as [Hgrant Hdeny].
      split; [exact Hgrant|]. by apply Hdeny.
    + intros acts v Hv.
      assert (Hinv : waits_or_answered i n port event (run acts w2)).
      { apply run_waits_or_answered. by left. }
      destruct Hinv as [Hwait|(r & Hr & Hid & Hin)].
      * rewrite (resume_resolved i _ n v _ Hwait eq_refl Hv). simpl.
        eexists. split_and!.
        -- apply list_lookup_insert_eq. by eapply lookup_lt_Some.
        -- done.
        -- apply elem_of_app. right. by apply list_elem_of_singleton.
      * exists r. unfold resume. rewrite Hr. simpl. done.
  - intros acts. destruct (reachable_correlated acts) as [Ht Hl]. split.
    + intros j t r Hj Hs. rewrite Forall_lookup in Ht.
      specialize (Ht j t Hj). unfold call_correlated in Ht. by rewrite Hs in Ht.
    + intros port' r Hin. rewrite Forall_forall in Hl. by apply (Hl (port', r)).
Qed.

(** *** What reaches the channel *)

(** C2, as the code has it: the listener itself delivers, in the [result]
    of a response under the message's id, the value the provider returned
    (unchanged) and the [unauthorized] bridge error, and, continuing after
    a consent flow that left the origin without permission, the
    [userRejectedRequest] bridge error.  It catches nothing: when the
    provider raises, nothing is posted on the port and the listener's own
    promise is rejected with the provider's error, unchanged. *)
Theorem outcomes_of_a_message (port : Port) (event : PortRequestEvent.t) (w : World) :
  let w' := onMessageListener port event w in
  let m := forwarded (method (PortRequestEvent.request event)) in
  let ps := params (PortRequestEvent.request event) in
  (∃ s, calls w' = calls w ++ [{| c_port := port; c_event := event; c_stage := s |}] ∧
     match s with
     | Posted r =>
         posted w' = posted w ++ [(port, r)] ∧
         PortResponseEvent.id r = PortRequestEvent.id event ∧
         ((checkPermission (sender_url port) w = true ∧
           ∃ v, routeSafeRPCRequest m ps = Returned v ∧
                PortResponseEvent.result r = Value v) ∨
          (checkPermission (sender_url port) w = false ∧
           PortResponseEvent.result r = BridgeError (new_EIP1193Error unauthorized)))
     | Rejected e =>
         posted w' = posted w ∧
         checkPermission (sender_url port) w = true ∧
         routeSafeRPCRequest m ps = Raised e
     | AwaitWindow _ =>
         posted w' = posted w ∧ checkPermission (sender_url port) w = false
     | AwaitConsent _ => False
     end) ∧
  (∀ w3 i t n v,
     calls w3 !! i = Some t → c_stage t = AwaitConsent n →
     promises w3 !! n = Some (Resolved v) →
     ∃ r, posted (resume i w3) = posted w3 ++ [(c_port t, r)] ∧
          PortResponseEvent.id r = PortRequestEvent.id (c_event t) ∧
          (checkPermission (sender_url (c_port t)) w3 = false →
           PortResponseEvent.result r
             = BridgeError (new_EIP1193Error userRejectedRequest))).
Proof.
  intros w' m ps. split.
  - subst w'.
    destruct (onMessageListener_cases port event w)
      as [(Hc & v & Hv & ->)|[(Hc & e & He & ->)|[(Hc & _ & ->)|(Hc & _ & ->)]]];
      eexists; (split; [reflexivity|]); simpl.
    + split_and!; try done. left. eauto.
    + done.
    + done.
    + split_and!; try done. by right.
  - intros w3 i t n v Ht Hs Hn.
    rewrite (resume_resolved i t n v) by done. simpl.
    eexists. split_and!; [reflexivity|done|]. simpl. by intros ->.
Qed.

End Properties.

(** *** The selectors *)

Lemma first_request_spec (l : list PermissionRequest) (p : PermissionRequest) :
  filter (λ q, state q = "request") l !! 0 = Some p ↔
  ∃ l1 l2, l = l1 ++ p :: l2 ∧
           Forall (λ q, state q ≠ "request") l1 ∧ state p = "request".
Proof.
  induction l as [|q l IH].
  - split; [done|]. intros (l1 & l2 & Hl & _). by destruct l1.
  - rewrite filter_cons. case_decide as Hq.
    + simpl. split.
      * intros [= ->]. by exists [], l.
      * intros (l1 & l2 & Hl & Hall & Hp). destruct l1 as [|q' l1].
        -- by injection Hl as ->.
        -- injection Hl as <- _. apply Forall_cons_1 in Hall as [Hq' _]. done.
    + rewrite IH. split.
      * intros (l1 & l2 & -> & Hall & Hp). exists (q :: l1), l2.
        split; [done|]. split; [|done]. by apply Forall_cons.
      * intros (l1 & l2 & Hl & Hall & Hp). destruct l1 as [|q' l1].
        -- injection Hl as -> _. done.
        -- injection Hl as <- ->. apply Forall_cons_1 in Hall as [_ Hall].
           by exists l1, l2.
Qed.

(** C10: over the values of the state's [permissionRequests], in the
    order [Object.values] enumerates them, [selectPendingPermissionRequests]
    keeps exactly those whose state is [request], each as often as it
    occurs and in the same order, and [selectCurrentPendingPermission] is
    the first of them: the first value in state [request], and no value
    when no value is in that state. *)
Theorem pending_permission_selectors (st : RootState) :
  let values := (permissionRequests (dappPermission st)).*2 in
  selectPermissionRequests st = values ∧
  (∀ p, p ∈ selectPendingPermissionRequests st ↔
        (∃ k, (k, p) ∈ permissionRequests (dappPermission st)) ∧
        state p = "request") ∧
  selectPendingPermissionRequests st `sublist_of` values ∧
  (∀ p, length (filter (λ q, q = p) (selectPendingPermissionRequests st)) =
        if decide (state p = "request")
        then length (filter (λ q, q = p) values)
        else 0) ∧
  selectCurrentPendingPermission st = head (selectPendingPermissionRequests st) ∧
  (∀ p, selectCurrentPendingPermission st = Some p ↔
        ∃ l1 l2, values = l1 ++ p :: l2 ∧
                 Forall (λ q, state q ≠ "request") l1 ∧ state p = "request") ∧
  (selectCurrentPendingPermission st = None ↔
   ∀ k p, (k, p) ∈ permissionRequests (dappPermission st) → state p ≠ "request").
Proof.
  intros values.
  unfold selectCurrentPendingPermission, selectPendingPermissionRequests,
    selectPermissionRequests, getProviderBridgeState, Object_values.
  fold values.
  assert (Hval : ∀ p, p ∈ values ↔ ∃ k, (k, p) ∈ permissionRequests (dappPermission st)).
  { intros p. subst values. rewrite list_elem_of_fmap. split.
    - intros ([k q] & -> & Hin). by exists k.
    - intros (k & Hin). by exists (k, p). }
  split_and!.
  - done.
  - intros p. rewrite list_elem_of_filter, Hval. tauto.
  - apply sublist_filter.
  - intros p. clear Hval. induction values as [|q l IH]; [by case_decide|].
    rewrite !filter_cons. repeat case_decide; simplify_eq; simpl;
      rewrite ?filter_cons; repeat case_decide; simplify_eq; simpl; try lia; try done.
  - by rewrite head_lookup.
  - intros p. apply first_request_spec.
  - rewrite <- head_lookup, head_None. split.
    + intros Hnil k p Hin Hs.
      apply (filter_nil_not_elem_of _ _ p Hnil Hs). apply Hval. by exists k.
    + intros Hnone. destruct (filter _ values) as [|p l] eqn:E; [done|].
      assert (Hp : p ∈ filter (λ p, state p = "request") values) by (rewrite E; left).
      apply list_elem_of_filter in Hp as [Hs (k & Hin)%Hval]. by destruct (Hnone k p).
Qed.

(** ** The concrete setting, step by step *)

(** C1 at [https://dapp.example]: the dApp asks to connect, the user
    allows it, and the suspended call continues.  The origin is allowed by
    then and the dispatcher, asked for [eth_requestAccounts], gets the
    account from the provider; the response that is posted nevertheless
    carries the [[]] the listener started with.  When the user turns the
    dApp down instead, the response carries [userRejectedRequest]. *)
Theorem granted_connection_answers_empty_list :
  checkPermission "https://dapp.example" granted = true ∧
  (routeContentScriptRPCRequest (provider := demoProvider)
     "eth_requestAccounts" [] granted).1 = Returned (JArr [JStr "0xA11CE"]) ∧
  posted (run (provider := demoProvider) (browser := demoBrowser) [Resume 0] granted)
    = [(dappPort, {| PortResponseEvent.id := "1";
                     PortResponseEvent.result := Value (JArr []) |})] ∧
  Value (JArr []) ≠ Value (JArr [JStr "0xA11CE"]) ∧
  checkPermission "https://dapp.example" denied = false ∧
  posted (run (provider := demoProvider) (browser := demoBrowser) [Resume 0] denied)
    = [(dappPort, {| PortResponseEvent.id := "1";
                     PortResponseEvent.result :=
                       BridgeError (new_EIP1193Error userRejectedRequest) |})].
Proof.
  split_and!; [by vm_compute|by vm_compute|by vm_compute|discriminate
              |by vm_compute|by vm_compute].
Qed.

(** C2 fails where the provider raises: the allowed dApp sends a method
    the provider does not support; nothing is posted, and the call ends
    rejected with the provider's error. *)
Lemma provider_error_is_not_delivered :
  checkPermission "https://dapp.example" granted = true ∧
  routeSafeRPCRequest (InternalEthereumProviderService := demoProvider) "eth_sign" []
    = Raised (JStr "unsupported method") ∧
  posted (onMessageListener (provider := demoProvider) (browser := demoBrowser)
            dappPort (envelope "2" "eth_sign" []) granted) = posted granted ∧
  posted (onMessageListener (provider := demoProvider) (browser := demoBrowser)
            dappPort (envelope "2" "eth_sign" []) granted) = [] ∧
  calls (onMessageListener (provider := demoProvider) (browser := demoBrowser)
           dappPort (envelope "2" "eth_sign" []) granted) !! 1
    = Some {| c_port := dappPort; c_event := envelope "2" "eth_sign" [];
              c_stage := Rejected (JStr "unsupported method") |}.
Proof. by vm_compute. Qed.

(** C3 fails where nothing is pending, and where the record is not in
    state [allow]: granting an [allow] record out of the blue stores
    nothing, and granting a [deny] record during the consent flow stores
    it without allowing the origin. *)
Lemma grant_does_not_always_allow :
  checkPermission (url (dappRecord "allow"))
    (grantPermission (dappRecord "allow") initial) = false ∧
  grantPermission (dappRecord "allow") initial = initial ∧
  allowedPages (grantPermission (dappRecord "deny") awaitingConsent)
    !! "https://dapp.example" = Some (dappRecord "deny") ∧
  checkPermission (url (dappRecord "deny"))
    (grantPermission (dappRecord "deny") awaitingConsent) = false.
Proof. by vm_compute. Qed.

(** C4 fails for an origin that is allowed and has nothing pending: the
    record stays and the origin stays allowed. *)
Lemma revoke_of_allowed_origin_is_ignored :
  allowedPages granted !! "https://dapp.example" = Some (dappRecord "allow") ∧
  denyOrRevokePermission (dappRecord "allow") granted = granted ∧
  checkPermission "https://dapp.example"
    (denyOrRevokePermission (dappRecord "allow") granted) = true.
Proof. by vm_compute. Qed.

(** ** The theorems at work in the concrete setting *)

(** C5: the dApp, not known yet, asks for a signature. *)
Lemma unauthorized_fails_closed_witness :
  allowedPages initial !! sender_url dappPort = None ∧
  method (PortRequestEvent.request (envelope "2" "personal_sign" [JStr "0x00"]))
    ≠ "eth_requestAccounts" ∧
  posted (onMessageListener (provider := demoProvider) (browser := demoBrowser)
            dappPort (envelope "2" "personal_sign" [JStr "0x00"]) initial)
    = [(dappPort, {| PortResponseEvent.id := "2";
                     PortResponseEvent.result :=
                       BridgeError (new_EIP1193Error unauthorized) |})] ∧
  pendingPermissionsRequests
    (onMessageListener (provider := demoProvider) (browser := demoBrowser)
       dappPort (envelope "2" "personal_sign" [JStr "0x00"]) initial) = ∅.
Proof.
  assert (H1 : allowedPages initial !! sender_url dappPort = None) by reflexivity.
  assert (H2 : method (PortRequestEvent.request
                         (envelope "2" "personal_sign" [JStr "0x00"]))
               ≠ "eth_requestAccounts") by discriminate.
  split; [exact H1|]. split; [exact H2|].
  pose proof (unauthorized_fails_closed (provider := demoProvider)
                (browser := demoBrowser) dappPort _ initial H1 H2)
    as (Hposted & _ & _ & Hpending & _).
  split; [exact Hposted|exact Hpending].
Defined.

(** C3 and C4: the user's decision while the dApp waits for consent, and
    out of the blue. *)
Lemma grantPermission_when_pending_witness :
  pendingPermissionsRequests awaitingConsent !! url (dappRecord "allow") = Some 0 ∧
  checkPermission "https://dapp.example"
    (grantPermission (dappRecord "allow") awaitingConsent) = true ∧
  promises (grantPermission (dappRecord "allow") awaitingConsent)
    = [Resolved (WithPermission (dappRecord "allow"))] ∧
  pendingPermissionsRequests initial !! url (dappRecord "allow") = None ∧
  (url (dappRecord "allow") ∉ Object_prototype_names) ∧
  grantPermission (dappRecord "allow") initial = initial.
Proof.
  assert (H1 : pendingPermissionsRequests awaitingConsent
                 !! url (dappRecord "allow") = Some 0) by (by vm_compute).
  assert (H2 : pendingPermissionsRequests initial !! url (dappRecord "allow") = None)
    by reflexivity.
  assert (H3 : url (dappRecord "allow") ∉ Object_prototype_names)
    by (by apply (bool_decide_unpack _)).
  split; [exact H1|].
  destruct (grantPermission_when_pending (dappRecord "allow") awaitingConsent)
    as (Hp & _ & _).
  destruct (Hp 0 H1) as (_ & Hc & _ & Hr & _).
  split; [exact Hc|]. split; [exact Hr|].
  split; [exact H2|]. split; [exact H3|].
  destruct (grantPermission_when_pending (dappRecord "allow") initial)
    as (_ & Hnone & _).
  exact (proj1 (Hnone H2 H3)).
Defined.

Lemma denyOrRevokePermission_when_pending_witness :
  pendingPermissionsRequests awaitingConsent !! url (dappRecord "deny") = Some 0 ∧
  checkPermission "https://dapp.example"
    (denyOrRevokePermission (dappRecord "deny") awaitingConsent) = false ∧
  promises (denyOrRevokePermission (dappRecord "deny") awaitingConsent)
    = [Resolved (WithText "Time to move on")] ∧
  pendingPermissionsRequests granted !! url (dappRecord "deny") = None ∧
  (url (dappRecord "deny") ∉ Object_prototype_names) ∧
  denyOrRevokePermission (dappRecord "deny") granted = granted ∧
  denyOrRevokePermission_raises (dappRecord "deny") granted = false.
Proof.
  assert (H1 : pendingPermissionsRequests awaitingConsent
                 !! url (dappRecord "deny") = Some 0) by (by vm_compute).
  assert (H2 : pendingPermissionsRequests granted !! url (dappRecord "deny") = None)
    by (by vm_compute).
  assert (H3 : url (dappRecord "deny") ∉ Object_prototype_names)
    by (by apply (bool_decide_unpack _)).
  split; [exact H1|].
  destruct (denyOrRevokePermission_when_pending (dappRecord "deny") awaitingConsent)
    as (Hp & _ & _).
  destruct (Hp 0 H1) as (_ & Hc & _ & Hr & _).
  split; [exact Hc|]. split; [exact Hr|].
  split; [exact H2|]. split; [exact H3|].
  destruct (denyOrRevokePermission_when_pending (dappRecord "deny") granted)
    as (_ & Hnone & _).
  exact (Hnone H2 H3).
Defined.

(** C6: the dApp's first connection request; the call does not move while
    nobody decides. *)
Lemma connection_request_suspends_for_consent_witness :
  allowedPages initial !! sender_url dappPort = None ∧
  method (PortRequestEvent.request (envelope "1" "eth_requestAccounts" []))
    = "eth_requestAccounts" ∧
  emitted awaitingConsent = [dappRecord "request"] ∧
  pendingPermissionsRequests awaitingConsent = {[ "https://dapp.example" := 0 ]} ∧
  posted awaitingConsent = [] ∧
  calls (run (provider := demoProvider) (browser := demoBrowser)
           [Resume 0; Message dappPort (envelope "2" "eth_chainId" []); Resume 0]
           awaitingConsent) !! 0
    = Some {| c_port := dappPort; c_event := envelope "1" "eth_requestAccounts" [];
              c_stage := AwaitConsent 0 |}.
Proof.
  assert (H1 : allowedPages initial !! sender_url dappPort = None) by reflexivity.
  assert (H2 : method (PortRequestEvent.request (envelope "1" "eth_requestAccounts" []))
               = "eth_requestAccounts") by reflexivity.
  split; [exact H1|]. split; [exact H2|].
  destruct (connection_request_suspends_for_consent (provider := demoProvider)
              (browser := demoBrowser) dappPort _ initial H1 H2)
    as ((He & He' & _) & (_ & Hp & _) & (_ & Hposted & _) & Hkeep & _).
  split; [exact (eq_trans He' He)|]. split; [exact Hp|]. split; [exact Hposted|].
  apply Hkeep. intros v. vm_compute. discriminate.
Defined.

(** C9: the dApp asks to connect twice before the user decides; the
    user's decision then reaches the second request only. *)
Lemma second_registration_orphans_first_witness :
  (calls askedTwice !! 0 = Some firstCaller ∧
   c_stage firstCaller = AwaitConsent 0 ∧
   pendingPermissionsRequests askedTwice !! url (dappRecord "request") = Some 0 ∧
   calls askedTwice !! 1 = Some secondCaller ∧
   c_stage secondCaller = AwaitWindow (dappRecord "request")) ∧
  pendingPermissionsRequests (windowOpened 1 askedTwice)
    !! url (dappRecord "request") = Some 1 ∧
  promises (run (provider := demoProvider) (browser := demoBrowser)
              [Grant (dappRecord "allow"); Resume 0; Resume 1; Resume 0]
              (windowOpened 1 askedTwice)) !! 0 = Some Pending ∧
  calls (run (provider := demoProvider) (browser := demoBrowser)
           [Grant (dappRecord "allow"); Resume 0; Resume 1; Resume 0]
           (windowOpened 1 askedTwice)) !! 0 = Some firstCaller.
Proof.
  assert (H1 : calls askedTwice !! 0 = Some firstCaller) by (by vm_compute).
  assert (H2 : c_stage firstCaller = AwaitConsent 0) by reflexivity.
  assert (H3 : pendingPermissionsRequests askedTwice !! url (dappRecord "request")
               = Some 0) by (by vm_compute).
  assert (H4 : calls askedTwice !! 1 = Some secondCaller) by (by vm_compute).
  assert (H5 : c_stage secondCaller = AwaitWindow (dappRecord "request"))
    by reflexivity.
  split; [by repeat split|].
  destruct (second_registration_orphans_first (provider := demoProvider)
              (browser := demoBrowser)
              [Message dappPort (envelope "1" "eth_requestAccounts" []); WindowOpened 0;
               Message dappPort (envelope "2" "eth_requestAccounts" [])]
              0 1 0 firstCaller secondCaller (dappRecord "request") H1 H2 H3 H4 H5)
    as (_ & Hp & _ & _ & _ & Hforever).
  split; [exact Hp|].
  exact (Hforever [Grant (dappRecord "allow"); Resume 0; Resume 1; Resume 0]).
Defined.

(** C8: the dApp asks to connect; whether the user turns it down, allows
    it, or allows it while another message comes in, the response carries
    the id of the connection request. *)
Lemma response_id_is_request_id_witness :
  (checkPermission (sender_url dappPort) initial = false ∧
   method (PortRequestEvent.request (envelope "1" "eth_requestAccounts" []))
     = "eth_requestAccounts" ∧
   url (dappRecord "deny") = sender_url dappPort ∧
   promises (run (provider := demoProvider) (browser := demoBrowser)
               [Message dappPort (envelope "2" "personal_sign" []);
                Grant (dappRecord "allow")] awaitingConsent) !! 0
     = Some (Resolved (WithPermission (dappRecord "allow")))) ∧
  posted (resume 0 (denyOrRevokePermission (dappRecord "deny") awaitingConsent))
    = [(dappPort, {| PortResponseEvent.id := "1";
                     PortResponseEvent.result :=
                       BridgeError (new_EIP1193Error userRejectedRequest) |})] ∧
  (∃ response,
     posted (resume 0 (grantPermission (dappRecord "deny") awaitingConsent))
       = posted awaitingConsent ++ [(dappPort, response)] ∧
     PortResponseEvent.id response = "1") ∧
  (∃ response,
     calls (resume 0 (run (provider := demoProvider) (browser := demoBrowser)
                        [Message dappPort (envelope "2" "personal_sign" []);
                         Grant (dappRecord "allow")] awaitingConsent)) !! 0
       = Some {| c_port := dappPort; c_event := envelope "1" "eth_requestAccounts" [];
                 c_stage := Posted response |} ∧
     PortResponseEvent.id response = "1" ∧
     (dappPort, response)
       ∈ posted (resume 0 (run (provider := demoProvider) (browser := demoBrowser)
                             [Message dappPort (envelope "2" "personal_sign" []);
                              Grant (dappRecord "allow")] awaitingConsent))).
Proof.
  assert (H1 : checkPermission (sender_url dappPort) initial = false) by reflexivity.
  assert (H2 : method (PortRequestEvent.request (envelope "1" "eth_requestAccounts" []))
               = "eth_requestAccounts") by reflexivity.
  assert (H3 : url (dappRecord "deny") = sender_url dappPort) by reflexivity.
  assert (H4 : promises (run (provider := demoProvider) (browser := demoBrowser)
               [Message dappPort (envelope "2" "personal_sign" []);
                Grant (dappRecord "allow")] awaitingConsent) !! 0
     = Some (Resolved (WithPermission (dappRecord "allow")))) by (by vm_compute).
  split; [by repeat split|].
  destruct (response_id_is_request_id (provider := demoProvider)
              (browser := demoBrowser) dappPort
              (envelope "1" "eth_requestAccounts" []) initial)
    as (_ & _ & Hconsent & _).
  destruct (Hconsent H1 H2) as [Hdecide Hlater].
  destruct (Hdecide (dappRecord "deny") H3) as [Hgrant Hdeny].
  split; [exact Hdeny|]. split; [exact Hgrant|].
  exact (Hlater [Message dappPort (envelope "2" "personal_sign" []);
                 Grant (dappRecord "allow")] _ H4).
Defined.

(** C2: the user turns the dApp down, and its call is continued. *)
Lemma outcomes_of_a_message_witness :
  calls denied !! 0 = Some firstCaller ∧
  promises denied !! 0 = Some (Resolved (WithText "Time to move on")) ∧
  checkPermission (sender_url (c_port firstCaller)) denied = false ∧
  ∃ r, posted (resume 0 denied) = posted denied ++ [(c_port firstCaller, r)] ∧
       PortResponseEvent.id r = PortRequestEvent.id (c_event firstCaller) ∧
       PortResponseEvent.result r
         = BridgeError (new_EIP1193Error userRejectedRequest).
Proof.
  assert (H1 : calls denied !! 0 = Some firstCaller) by (by vm_compute).
  assert (H2 : promises denied !! 0 = Some (Resolved (WithText "Time to move on")))
    by (by vm_compute).
  assert (H3 : checkPermission (sender_url (c_port firstCaller)) denied = false)
    by (by vm_compute).
  split; [exact H1|]. split; [exact H2|]. split; [exact H3|].
  destruct (outcomes_of_a_message (provider := demoProvider) (browser := demoBrowser)
              dappPort (envelope "1" "eth_requestAccounts" []) initial)
    as [_ Hresume].
  destruct (Hresume denied 0 firstCaller 0 _ H1 eq_refl H2) as (r & Hp & Hid & Hr).
  exists r. split; [exact Hp|]. split; [exact Hid|exact (Hr H3)].
Defined.

(** C10: of the three requests of the busy slice the second is the
    current one, and a slice whose only request has been allowed has
    none. *)
Lemma pending_permission_selectors_witness :
  ((permissionRequests (dappPermission busySlice)).*2
     = [dappRecord "allow"] ++ otherRecord "request"
         :: [{| url := "https://third.example"; favIconUrl := ""; title := "";
                state := "request" |}] ∧
   Forall (λ q, state q ≠ "request") [dappRecord "allow"] ∧
   state (otherRecord "request") = "request") ∧
  selectCurrentPendingPermission busySlice = Some (otherRecord "request") ∧
  (∀ k p, (k, p) ∈ permissionRequests (dappPermission allowedSlice) →
          state p ≠ "request") ∧
  selectCurrentPendingPermission allowedSlice = None.
Proof.
  assert (H1 : (permissionRequests (dappPermission busySlice)).*2
     = [dappRecord "allow"] ++ otherRecord "request"
         :: [{| url := "https://third.example"; favIconUrl := ""; title := "";
                state := "request" |}]) by reflexivity.
  assert (H2 : Forall (λ q, state q ≠ "request") [dappRecord "allow"]).
  { apply Forall_singleton. discriminate. }
  assert (H3 : state (otherRecord "request") = "request") by reflexivity.
  assert (H4 : ∀ k p, (k, p) ∈ permissionRequests (dappPermission allowedSlice) →
                      state p ≠ "request").
  { intros k p Hp. apply list_elem_of_singleton in Hp. injection Hp as _ ->.
    discriminate. }
  split; [by repeat split|].
  destruct (pending_permission_selectors busySlice) as (_ & _ & _ & _ & _ & Hfirst & _).
  split.
  { apply Hfirst. eexists _, _. split; [exact H1|]. split; [exact H2|exact H3]. }
  split; [exact H4|].
  destruct (pending_permission_selectors allowedSlice) as (_ & _ & _ & _ & _ & _ & Hnone).
  exact (proj2 Hnone H4).
Defined.

(** ** Further properties of the service *)

Section Further.
Context `{provider : InternalEthereumProviderService} `{browser : Browser}.

(** *** Who gets allowed, and who reaches the provider *)

Lemma step_allowedPages u p w a :
  allowedPages (step w a) !! u = Some p →
  allowedPages w !! u = Some p ∨
  (a = Grant p ∧ url p = u ∧
   (is_Some (pendingPermissionsRequests w !! u) ∨
    pendingPermissionsRequests w !! u = None ∧ u ∈ Object_prototype_names)).
Proof.
  destruct a as [port event|i|r|r|i]; simpl.
  - destruct (onMessageListener_state port event w) as (-> & _). by left.
  - destruct (windowOpened_cases i w) as [->|(t & pr & _ & _ & ->)]; by left.
  - unfold grantPermission.
    destruct (pendingPermissionsRequests w !! url r) as [n|] eqn:Hn;
      [|destruct (inherited (url r)) eqn:Hi; [|by left]];
      simpl; rewrite lookup_insert; (case_decide as Hu; [|by left]);
      intros [= ->]; right; rewrite <- Hu; (split_and!; [done|done|]).
    + left. eauto.
    + right. split; [done|]. by apply bool_decide_eq_true in Hi.
  - destruct (denyOrRevokePermission_cases r w) as [->|[(m & Hm & ->)|(Hm & ->)]];
      [by left| |];
      simpl; rewrite lookup_delete; (case_decide; [done|by left]).
  - destruct (resume_cases i w) as [->|(t & m & v' & r & _ & _ & _ & _ & _ & ->)];
      by left.
Qed.

Lemma checkPermission_true u w :
  checkPermission u w = true ↔
  ∃ p, allowedPages w !! u = Some p ∧ state p = "allow".
Proof.
  unfold checkPermission. destruct (allowedPages w !! u) as [p|]; split.
  - intros Hs%bool_decide_eq_true. eauto.
  - intros (p' & [= <-] & Hs). by apply bool_decide_eq_true.
  - done.
  - by intros (p' & ? & _).
Qed.

(** X1: one step allows an origin that was not allowed only when the step
    is [grantPermission] of a record of that origin in state [allow], and
    the guard of [grantPermission] passes: a consent request of the origin
    is pending, or the origin is the name of a property of
    [Object.prototype]; that record is then the one stored. *)
Theorem only_grant_allows (u : string) (w : World) (a : Action) :
  checkPermission u w = false →
  checkPermission u (step w a) = true →
  ∃ r, a = Grant r ∧ url r = u ∧ state r = "allow" ∧
       (is_Some (pendingPermissionsRequests w !! u) ∨
        pendingPermissionsRequests w !! u = None ∧ u ∈ Object_prototype_names) ∧
       allowedPages (step w a) !! u = Some r.
Proof.
  intros Hno (p & Hp & Hs)%checkPermission_true.
  destruct (step_allowedPages _ _ _ _ Hp) as [Hold|(-> & Hu & Hpend)].
  - assert (checkPermission u w = true) by (apply checkPermission_true; eauto).
    congruence.
  - by exists p.
Qed.

(** X2: whatever record the service holds for an origin was handed to
    [grantPermission] at some point, and it is a record of that origin. *)
Theorem stored_record_was_granted (acts : list Action) (u : string) (p : PermissionRequest) :
  allowedPages (run acts initial) !! u = Some p →
  Grant p ∈ acts ∧ url p = u.
Proof.
  induction acts as [|a acts IH] using rev_ind.
  { simpl. by rewrite lookup_empty. }
  rewrite run_snoc. intros Hp.
  destruct (step_allowedPages _ _ _ _ Hp) as [Hold|(-> & Hu & _)].
  - destruct (IH Hold) as [Hin Hu]. split; [|done]. apply elem_of_app. by left.
  - split; [|done]. apply elem_of_app. right. by apply list_elem_of_singleton.
Qed.

Lemma step_stays_unallowed u w a :
  checkPermission u w = false →
  (∀ r, a = Grant r → url r = u → state r ≠ "allow") →
  checkPermission u (step w a) = false.
Proof.
  intros Hno Ha. destruct (checkPermission u (step w a)) eqn:Hc; [|done].
  apply checkPermission_true in Hc as (p & Hp & Hs).
  destruct (step_allowedPages _ _ _ _ Hp) as [Hold|(-> & Hu & _)].
  - assert (checkPermission u w = true) by (apply checkPermission_true; eauto).
    congruence.
  - by destruct (Ha p).
Qed.

Lemma step_errors_only u w a :
  checkPermission u w = false →
  Forall (λ t, sender_url (c_port t) = u → errors_only t) (calls w) →
  Forall (λ t, sender_url (c_port t) = u → errors_only t) (calls (step w a)).
Proof.
  intros Hno Hw. destruct a as [port event|i|r|r|i]; simpl.
  - destruct (onMessageListener_cases port event w)
      as [(Hc & v & _ & ->)|[(Hc & e & _ & ->)|[(_ & _ & ->)|(_ & _ & ->)]]]; simpl;
      (apply Forall_app; split; [done|]); apply Forall_singleton; simpl; intros Hu.
    + congruence.
    + congruence.
    + done.
    + unfold errors_only. simpl. by left.
  - destruct (windowOpened_cases i w) as [->|(t & pr & _ & _ & ->)]; [done|].
    simpl. by apply Forall_insert.
  - destruct (grantPermission_cases r w) as [->|[(m & _ & ->)|(_ & ->)]]; done.
  - destruct (denyOrRevokePermission_cases r w) as [->|[(m & _ & ->)|(_ & ->)]]; done.
  - destruct (resume_cases i w)
      as [->|(t & m & v' & r & _ & _ & _ & _ & Hr & ->)]; [done|].
    simpl. apply Forall_insert; [done|]. simpl. intros Hu.
    unfold errors_only. simpl. rewrite Hr, Hu, Hno. by right.
Qed.

(** X3: as long as the user never grants an origin a record in state
    [allow], the origin is never allowed, none of its calls ends rejected
    by a provider error, and every answer it gets is the [unauthorized]
    or the [userRejectedRequest] bridge error. *)
Theorem never_granted_origin_gets_only_errors (u : string) (acts : list Action) :
  (∀ r, Grant r ∈ acts → url r = u → state r ≠ "allow") →
  checkPermission u (run acts initial) = false ∧
  ∀ i t, calls (run acts initial) !! i = Some t → sender_url (c_port t) = u →
    match c_stage t with
    | Posted r =>
        PortResponseEvent.result r = BridgeError (new_EIP1193Error unauthorized) ∨
        PortResponseEvent.result r
          = BridgeError (new_EIP1193Error userRejectedRequest)
    | Rejected _ => False
    | _ => True
    end.
Proof.
  intros Hacts.
  assert (Hinv : checkPermission u (run acts initial) = false ∧
                 Forall (λ t, sender_url (c_port t) = u → errors_only t)
                   (calls (run acts initial))).
  { induction acts as [|a acts IH] using rev_ind; [by split|].
    rewrite run_snoc.
    destruct IH as [Hno Hcalls].
    { intros r Hin. apply Hacts, elem_of_app. by left. }
    split.
    - apply step_stays_unallowed; [done|]. intros r ->. apply Hacts, elem_of_app.
      right. by apply list_elem_of_singleton.
    - by apply step_errors_only. }
  destruct Hinv as [Hno Hcalls]. split; [done|].
  intros i t Hi Hu. rewrite Forall_lookup in Hcalls. by apply (Hcalls i t Hi Hu).
Qed.


(** *** Counting answers and consent flows *)

Lemma count_calls_app f l k :
  count_calls f (l ++ k) = count_calls f l + count_calls f k.
Proof. unfold count_calls. by rewrite filter_app, length_app. Qed.

Lemma count_calls_cons f t l :
  count_calls f (t :: l) = (if f t then 1 else 0) + count_calls f l.
Proof.
  unfold count_calls. rewrite filter_cons.
  destruct (f t); case_decide; simpl; congruence.
Qed.

Lemma count_calls_insert f l i y x :
  l !! i = Some y →
  count_calls f (<[i := x]> l) + (if f y then 1 else 0)
    = count_calls f l + (if f x then 1 else 0).
Proof.
  intros Hi.
  rewrite insert_take_drop by (by eapply lookup_lt_Some).
  rewrite <- (take_drop_middle l i y Hi) at 3.
  rewrite !count_calls_app, !count_calls_cons. lia.
Qed.

Lemma step_one_response w a :
  length (posted w) = count_calls is_posted (calls w) →
  length (posted (step w a)) = count_calls is_posted (calls (step w a)).
Proof.
  intros Hw. destruct a as [port event|i|r|r|i]; simpl.
  - destruct (onMessageListener_cases port event w)
      as [(_ & v & _ & ->)|[(_ & e & _ & ->)|[(_ & _ & ->)|(_ & _ & ->)]]]; simpl;
      rewrite ?length_app, count_calls_app, count_calls_cons; simpl;
      unfold count_calls at 2; simpl; lia.
  - destruct (windowOpened_cases i w) as [->|(t & pr & Ht & Hs & ->)]; [done|].
    simpl. pose proof (count_calls_insert is_posted _ _ _
      {| c_port := c_port t; c_event := c_event t;
         c_stage := AwaitConsent (length (promises w)) |} Ht) as Hc.
    assert (Hy : is_posted t = false) by (unfold is_posted; by rewrite Hs).
    rewrite Hy in Hc. simpl in Hc. lia.
  - destruct (grantPermission_cases r w) as [->|[(m & _ & ->)|(_ & ->)]]; done.
  - destruct (denyOrRevokePermission_cases r w) as [->|[(m & _ & ->)|(_ & ->)]]; done.
  - destruct (resume_cases i w)
      as [->|(t & m & v' & r & Ht & Hs & _ & _ & _ & ->)]; [done|].
    simpl. rewrite length_app. simpl.
    pose proof (count_calls_insert is_posted _ _ _
      {| c_port := c_port t; c_event := c_event t; c_stage := Posted r |} Ht) as Hc.
    assert (Hy : is_posted t = false) by (unfold is_posted; by rewrite Hs).
    rewrite Hy in Hc. simpl in Hc. lia.
Qed.

(** X5: the service posts one response per answered call and none
    besides: at any moment the number of responses posted so far is the
    number of calls that have reached their [port.postMessage]. *)
Theorem one_response_per_answered_call (acts : list Action) :
  length (posted (run acts initial))
    = count_calls is_posted (calls (run acts initial)).
Proof.
  induction acts as [|a acts IH] using rev_ind; [done|].
  rewrite run_snoc. by apply step_one_response.
Qed.

Lemma step_consent_ledger w a : consent_ledger w → consent_ledger (step w a).
Proof.
  intros (Hem & Hst). destruct a as [port event|i|r|r|i]; simpl.
  - destruct (onMessageListener_cases port event w)
      as [(_ & v & _ & ->)|[(_ & e & _ & ->)|[(_ & _ & ->)|(_ & _ & ->)]]];
      (split; simpl;
       [rewrite ?length_app, count_calls_app, count_calls_cons; simpl;
        unfold count_calls at 2; simpl; lia
       |try done]).
    apply Forall_app. split; [done|]. by apply Forall_singleton.
  - destruct (windowOpened_cases i w) as [->|(t & pr & Ht & Hs & ->)]; [done|].
    split; simpl; [|done].
    pose proof (count_calls_insert awaits_window _ _ _
      {| c_port := c_port t; c_event := c_event t;
         c_stage := AwaitConsent (length (promises w)) |} Ht) as Hc.
    assert (Hy : awaits_window t = true) by (unfold awaits_window; by rewrite Hs).
    rewrite Hy in Hc. simpl in Hc.
    rewrite length_app. simpl. lia.
  - destruct (grantPermission_cases r w) as [->|[(m & _ & ->)|(_ & ->)]];
      [done| |done].
    split; simpl; [|done].
    unfold call_resolve. destruct (promises w !! m) as [[|?]|]; try done.
    by rewrite length_insert.
  - destruct (denyOrRevokePermission_cases r w) as [->|[(m & _ & ->)|(_ & ->)]];
      [done| |done].
    split; simpl; [|done].
    unfold call_resolve. destruct (promises w !! m) as [[|?]|]; try done.
    by rewrite length_insert.
  - destruct (resume_cases i w)
      as [->|(t & m & v' & r & Ht & Hs & _ & _ & _ & ->)]; [done|].
    split; simpl; [|done].
    pose proof (count_calls_insert awaits_window _ _ _
      {| c_port := c_port t; c_event := c_event t; c_stage := Posted r |} Ht) as Hc.
    assert (Hy : awaits_window t = false) by (unfold awaits_window; by rewrite Hs).
    rewrite Hy in Hc. simpl in Hc. lia.
Qed.

(** X6: the books of the consent flow balance.  Every [requestPermission]
    notification emitted so far carries the state [request], and it
    either still waits in [showDappConnectWindow] or has registered its
    promise: notifications = promises + calls waiting for a popup.  In
    particular no promise is registered without a notification before
    it. *)
Theorem consent_flow_ledger (acts : list Action) :
  length (emitted (run acts initial))
    = length (promises (run acts initial))
      + count_calls awaits_window (calls (run acts initial)) ∧
  length (promises (run acts initial)) ≤ length (emitted (run acts initial)) ∧
  Forall (λ pr, state pr = "request") (emitted (run acts initial)).
Proof.
  assert (H : consent_ledger (run acts initial)).
  { induction acts as [|a acts IH] using rev_ind.
    - split; [done|apply Forall_nil_2].
    - rewrite run_snoc. by apply step_consent_ledger. }
  destruct H as (Hem & Hst). split_and!; [done|lia|done].
Qed.

(** *** Pending requests and their callers *)

Lemma step_callers_wait w a :
  registry_ok w → callers_wait w → callers_wait (step w a).
Proof.
  intros [Hreg _] [Hwin Hpend]. destruct a as [port event|i|r|r|i]; simpl.
  - destruct (onMessageListener_state port event w) as (_ & Hp & _ & _).
    split.
    + destruct (onMessageListener_cases port event w)
        as [(_ & v & _ & ->)|[(_ & e & _ & ->)|[(_ & _ & ->)|(_ & _ & ->)]]]; simpl;
        intros j t pr [Hj|[_ Hj]]%lookup_app_Some Hs; eauto;
        apply list_lookup_singleton_Some in Hj as [_ <-]; simpl in *; congruence.
    + rewrite Hp. intros u n Hu. destruct (Hpend u n Hu) as (j & t & Hj & Hs & Hport).
      exists j, t. split; [|done].
      destruct (onMessageListener_state port event w) as (_ & _ & _ & s & ->).
      by apply lookup_app_l_Some.
  - destruct (windowOpened_cases i w) as [->|(t & pr & Ht & Hs & ->)]; [done|].
    split; simpl.
    + intros j t' pr' [[-> [<- _]]|[Hne Hj]]%list_lookup_insert_Some Hs'.
      * simpl in Hs'. congruence.
      * eauto.
    + intros u n. rewrite lookup_insert. case_decide as Hu.
      * intros [= <-]. exists i. eexists. split.
        { apply list_lookup_insert_eq. by eapply lookup_lt_Some. }
        split; [done|]. simpl. rewrite <- Hu, (Hwin i t pr Ht Hs). done.
      * intros Hn. destruct (Hpend u n Hn) as (j & t' & Hj & Hs' & Hport).
        exists j, t'. split; [|done].
        rewrite list_lookup_insert_ne; [done|]. intros ->. congruence.
  - destruct (grantPermission_cases r w) as [->|[(m & _ & ->)|(_ & ->)]]; [done| |done].
    split; simpl; [done|].
    intros u n. rewrite lookup_delete. case_decide; [done|]. eauto.
  - destruct (denyOrRevokePermission_cases r w) as [->|[(m & _ & ->)|(_ & ->)]]; [done| |done].
    split; simpl; [done|].
    intros u n. rewrite lookup_delete. case_decide; [done|]. eauto.
  - destruct (resume_cases i w)
      as [->|(t & m & v' & r & Ht & Hs & Hm & _ & _ & ->)]; [done|].
    split; simpl.
    + intros j t' pr' [[-> [<- _]]|[Hne Hj]]%list_lookup_insert_Some Hs'.
      * simpl in Hs'. congruence.
      * eauto.
    + intros u n Hn. destruct (Hpend u n Hn) as (j & t' & Hj & Hs' & Hport).
      exists j, t'. split; [|done].
      rewrite list_lookup_insert_ne; [done|]. intros ->.
      rewrite Ht in Hj. injection Hj as <-. rewrite Hs in Hs'. injection Hs' as <-.
      specialize (Hreg u m Hn). congruence.
Qed.

Lemma reachable_callers_wait acts : callers_wait (run acts initial).
Proof.
  induction acts as [|a acts IH] using rev_ind.
  - split; simpl; intros *; [by rewrite lookup_nil|by rewrite lookup_empty].
  - rewrite run_snoc. apply step_callers_wait; [apply reachable_registry_ok|done].
Qed.

(** X7: a pending request never dangles.  Whenever the registry holds a
    [resolve] for an origin, its promise is not resolved yet and a call
    from a port of that origin is suspended on it, so that granting or
    denying the origin always wakes a caller. *)
Theorem pending_request_has_a_waiting_caller (acts : list Action) (u : string) (n : nat) :
  pendingPermissionsRequests (run acts initial) !! u = Some n →
  promises (run acts initial) !! n = Some Pending ∧
  ∃ i t, calls (run acts initial) !! i = Some t ∧
         c_stage t = AwaitConsent n ∧
         sender_url (c_port t) = u.
Proof.
  intros Hn. split.
  - destruct (reachable_registry_ok acts) as [Hreg _]. eauto.
  - destruct (reachable_callers_wait acts) as [_ Hpend]. eauto.
Qed.

(** X8: turning a waiting origin down answers its caller.  When a call is
    suspended on the promise registered for its origin, a
    [denyOrRevokePermission] for that origin, or a [grantPermission] of a
    record whose state is not [allow], followed by the continuation of the
    call, posts the [userRejectedRequest] bridge error under the call's id
    on the call's port, and leaves no pending request for the origin. *)
Theorem turning_down_answers_user_rejected
    (w : World) (i n : nat) (t : Call) (r : PermissionRequest) :
  calls w !! i = Some t → c_stage t = AwaitConsent n →
  pendingPermissionsRequests w !! sender_url (c_port t) = Some n →
  promises w !! n = Some Pending →
  url r = sender_url (c_port t) →
  let rejected :=
    {| PortResponseEvent.id := PortRequestEvent.id (c_event t);
       PortResponseEvent.result :=
         BridgeError (new_EIP1193Error userRejectedRequest) |} in
  (posted (resume i (denyOrRevokePermission r w)) = posted w ++ [(c_port t, rejected)] ∧
   pendingPermissionsRequests (resume i (denyOrRevokePermission r w))
     !! sender_url (c_port t) = None ∧
   allowedPages (resume i (denyOrRevokePermission r w))
     !! sender_url (c_port t) = None) ∧
  (state r ≠ "allow" →
   posted (resume i (grantPermission r w)) = posted w ++ [(c_port t, rejected)] ∧
   pendingPermissionsRequests (resume i (grantPermission r w))
     !! sender_url (c_port t) = None).
Proof.
  intros Ht Hs Hp Hn Hr rejected.
  assert (Hres : ∀ v, call_resolve n v (promises w) !! n = Some (Resolved v)).
  { intros v. unfold call_resolve. rewrite Hn.
    apply list_lookup_insert_eq. by eapply lookup_lt_Some. }
  split.
  - assert (Hd : denyOrRevokePermission r w =
             set_pending (λ m, delete (url r) m)
               (set_promises (call_resolve n (WithText "Time to move on"))
                  (set_allowedPages (λ m, delete (url r) m) w))).
    { unfold denyOrRevokePermission. by rewrite Hr, Hp. }
    rewrite Hd.
    rewrite (resume_resolved i t n (WithText "Time to move on")); [|done|done|apply Hres].
    unfold checkPermission. simpl. rewrite Hr, !lookup_delete_eq. done.
  - intros Hstate.
    assert (Hg : grantPermission r w =
             set_pending (λ m, delete (url r) m)
               (set_promises (call_resolve n (WithPermission r))
                  (set_allowedPages (λ m, <[url r := r]> m) w))).
    { unfold grantPermission. by rewrite Hr, Hp. }
    rewrite Hg.
    rewrite (resume_resolved i t n (WithPermission r)); [|done|done|apply Hres].
    unfold checkPermission. simpl. rewrite Hr, lookup_delete_eq.
    rewrite <- Hr, lookup_insert_eq. by rewrite bool_decide_eq_false_2.
Qed.

(** X9: the user's decision on one origin leaves every other origin
    alone: [grantPermission] and [denyOrRevokePermission] change neither
    the stored record nor the pending request of another origin, and do
    not resolve the promise another origin is waiting on. *)
Theorem decision_leaves_other_origins_alone
    (acts : list Action) (r : PermissionRequest) (u : string) :
  url r ≠ u →
  (allowedPages (grantPermission r (run acts initial)) !! u
     = allowedPages (run acts initial) !! u ∧
   pendingPermissionsRequests (grantPermission r (run acts initial)) !! u
     = pendingPermissionsRequests (run acts initial) !! u ∧
   ∀ n, pendingPermissionsRequests (run acts initial) !! u = Some n →
        promises (grantPermission r (run acts initial)) !! n = Some Pending) ∧
  (allowedPages (denyOrRevokePermission r (run acts initial)) !! u
     = allowedPages (run acts initial) !! u ∧
   pendingPermissionsRequests (denyOrRevokePermission r (run acts initial)) !! u
     = pendingPermissionsRequests (run acts initial) !! u ∧
   ∀ n, pendingPermissionsRequests (run acts initial) !! u = Some n →
        promises (denyOrRevokePermission r (run acts initial)) !! n = Some Pending).
Proof.
  intros Hne. destruct (reachable_registry_ok acts) as [Ha Hb].
  split.
  - destruct (grantPermission_cases r (run acts initial))
      as [->|[(m & Hm & ->)|(Hm & ->)]].
    + split_and!; eauto.
    + simpl. rewrite lookup_insert_ne, lookup_delete_ne by done.
      split_and!; [done|done|]. intros n Hn.
      rewrite call_resolve_other; [eauto|]. intros ->.
      by destruct (Hne (Hb _ _ _ Hm Hn)).
    + simpl. rewrite lookup_insert_ne by done. split_and!; eauto.
  - destruct (denyOrRevokePermission_cases r (run acts initial))
      as [->|[(m & Hm & ->)|(Hm & ->)]].
    + split_and!; eauto.
    + simpl. rewrite !lookup_delete_ne by done.
      split_and!; [done|done|]. intros n Hn.
      rewrite call_resolve_other; [eauto|]. intros ->.
      by destruct (Hne (Hb _ _ _ Hm Hn)).
    + simpl. rewrite lookup_delete_ne by done. split_and!; eauto.
Qed.

(** *** The popup *)

(** X10: the listener opens a popup and emits a notification exactly for
    a connection request from a sender that is not allowed, one of each.
    The popup is the extension's [popup.html] on the connect page, 384 by
    558, focused, at the top of the current window and flush with its
    right edge, where a window without [left] counts from 0 and one
    without [width] counts as 1920 wide. *)
Theorem popup_only_for_connection_requests
    (port : Port) (event : PortRequestEvent.t) (w : World) :
  let w' := onMessageListener port event w in
  if negb (checkPermission (sender_url port) w)
     && String.eqb (method (PortRequestEvent.request event)) "eth_requestAccounts"
  then
    emitted w' = emitted w ++ [permissionRequest_of port] ∧
    ∃ p, windows w' = windows w ++ [p] ∧
         cd_url p = runtime_getURL "popup.html" +:+ "?page="
                      +:+ ALLOWED_QUERY_PARAM_PAGE_dappConnect ∧
         cd_type p = "popup" ∧ cd_focused p = true ∧
         cd_width p = 384%Z ∧ cd_height p = 558%Z ∧
         cd_top p = win_top windows_getCurrent ∧
         (cd_left p + cd_width p
          = default 0 (win_left windows_getCurrent)
            + default 1920 (win_width windows_getCurrent))%Z
  else emitted w' = emitted w ∧ windows w' = windows w.
Proof.
  intros w'. subst w'.
  destruct (onMessageListener_cases port event w)
    as [(Hc & v & _ & ->)|[(Hc & e & _ & ->)|[(Hc & Hm & ->)|(Hc & Hm & ->)]]];
    rewrite Hc; simpl; try done.
  - rewrite Hm. simpl. split; [done|]. eexists. split; [done|]. simpl.
    split_and!; try done. lia.
  - by destruct (String.eqb_spec (method (PortRequestEvent.request event))
                   "eth_requestAccounts").
Qed.

(** *** After the grant *)

Lemma onMessageListener_allowed port event w :
  checkPermission (sender_url port) w = true →
  let m := forwarded (method (PortRequestEvent.request event)) in
  let ps := params (PortRequestEvent.request event) in
  let w' := onMessageListener port event w in
  emitted w' = emitted w ∧ windows w' = windows w ∧
  providerCalls w' = providerCalls w ++ [(m, ps)] ∧
  match routeSafeRPCRequest m ps with
  | Returned v =>
      posted w' = posted w ++ [(port, {| PortResponseEvent.id := PortRequestEvent.id event;
                                         PortResponseEvent.result := Value v |})]
  | Raised _ => posted w' = posted w
  end.
Proof.
  intros Hc m ps w'. subst w' m ps.
  destruct (onMessageListener_cases port event w)
    as [(_ & v & Hv & ->)|[(_ & e & He & ->)|[(Hc' & _)|(Hc' & _)]]];
    try congruence.
  - rewrite Hv. done.
  - rewrite He. done.
Qed.

(** X13: once the user has granted a waiting origin a record in state
    [allow], every later message from that origin goes to the provider,
    the connection request included, which is asked as [eth_accounts]: no
    notification is emitted, no popup is opened and no request becomes
    pending; the value the provider returns is posted under the message's
    id, and when the provider raises nothing is posted. *)
Theorem granted_origin_is_dispatched
    (w : World) (r : PermissionRequest) (n : nat)
    (port : Port) (event : PortRequestEvent.t) :
  pendingPermissionsRequests w !! url r = Some n →
  state r = "allow" →
  sender_url port = url r →
  let m := forwarded (method (PortRequestEvent.request event)) in
  let ps := params (PortRequestEvent.request event) in
  let w' := onMessageListener port event (grantPermission r w) in
  emitted w' = emitted w ∧ windows w' = windows w ∧
  pendingPermissionsRequests w' !! url r = None ∧
  providerCalls w' = providerCalls w ++ [(m, ps)] ∧
  match routeSafeRPCRequest m ps with
  | Returned v =>
      posted w' = posted w ++ [(port, {| PortResponseEvent.id := PortRequestEvent.id event;
                                         PortResponseEvent.result := Value v |})]
  | Raised _ => posted w' = posted w
  end.
Proof.
  intros Hn Hs Hport m ps w'.
  assert (Hg : grantPermission r w =
             set_pending (λ m, delete (url r) m)
               (set_promises (call_resolve n (WithPermission r))
                  (set_allowedPages (λ m, <[url r := r]> m) w))).
  { unfold grantPermission. by rewrite Hn. }
  assert (Hc : checkPermission (sender_url port) (grantPermission r w) = true).
  { apply checkPermission_true. exists r. split; [|done].
    rewrite Hg, Hport. simpl. apply lookup_insert_eq. }
  destruct (onMessageListener_allowed port event _ Hc) as (He & Hw & Hp & Hposted).
  destruct (onMessageListener_state port event (grantPermission r w))
    as (_ & Hpend & _).
  subst w'. rewrite He, Hw, Hp, Hpend. rewrite Hg in *. simpl in *.
  split_and!; try done. apply lookup_delete_eq.
Qed.

(** *** Names that every object inherits *)

(** X14: a URL that is the name of a property of [Object.prototype]
    passes the guard of [grantPermission] and [denyOrRevokePermission]
    with nothing pending.  Granting then stores the record, so that the
    name is allowed when the record's state is [allow], and touches
    neither the registry nor the promises; it ends in an error exactly
    for [__proto__], [__defineGetter__] and [__defineSetter__].  Denying
    removes the record stored under the name, except under [__proto__],
    where it changes nothing. *)
Theorem inherited_name_passes_the_guard (r : PermissionRequest) (w : World) :
  pendingPermissionsRequests w !! url r = None →
  url r ∈ Object_prototype_names →
  (allowedPages (grantPermission r w) = <[url r := r]> (allowedPages w) ∧
   checkPermission (url r) (grantPermission r w) = bool_decide (state r = "allow") ∧
   pendingPermissionsRequests (grantPermission r w) = pendingPermissionsRequests w ∧
   promises (grantPermission r w) = promises w ∧
   (grantPermission_raises r w = true ↔
    url r ∈ ["__proto__"; "__defineGetter__"; "__defineSetter__"])) ∧
  (url r ≠ "__proto__" →
   allowedPages (denyOrRevokePermission r w) = delete (url r) (allowedPages w) ∧
   checkPermission (url r) (denyOrRevokePermission r w) = false) ∧
  (url r = "__proto__" → denyOrRevokePermission r w = w) ∧
  pendingPermissionsRequests (denyOrRevokePermission r w) = pendingPermissionsRequests w ∧
  promises (denyOrRevokePermission r w) = promises w.
Proof.
  intros Hn Hk.
  assert (Hi : inherited (url r) = true) by (by apply bool_decide_eq_true).
  unfold grantPermission, grantPermission_raises, denyOrRevokePermission,
    checkPermission, inherited_call_throws.
  rewrite Hn, Hi. simpl. split_and!.
  - done.
  - by rewrite lookup_insert_eq.
  - done.
  - done.
  - apply bool_decide_eq_true.
  - intros Hne. destruct (String.eqb_spec (url r) "__proto__"); [done|].
    simpl. by rewrite lookup_delete_eq.
  - intros ->. done.
  - by destruct (negb (String.eqb (url r) "__proto__")).
  - by destruct (negb (String.eqb (url r) "__proto__")).
Qed.

End Further.

(** ** The constructor's listener *)

Section ConstructorProperties.
Context `{shared : ProviderBridgeShared}.
Context `{provider : InternalEthereumProviderService} `{browser : Browser}.

Lemma onMessageListener_changes port event w : onMessageListener port event w ≠ w.
Proof.
  intros Heq. destruct (onMessageListener_state port event w) as (_ & _ & _ & s & Hc).
  rewrite Heq in Hc. apply (f_equal length) in Hc. rewrite length_app in Hc.
  simpl in Hc. lia.
Qed.

Lemma onConnect_Some port required :
  onConnect port = Some required ↔
  rp_name port = EXTERNAL_PORT_NAME ∧
  ∃ s u, rp_sender port = Some s ∧ ms_url s = Some u ∧ u ≠ "" ∧
         required = {| sender_url := u; sender_tab := ms_tab s |}.
Proof.
  unfold onConnect.
  destruct (String.eqb_spec (rp_name port) EXTERNAL_PORT_NAME) as [Hn|Hn].
  - destruct (rp_sender port) as [s|]; simpl.
    + destruct (ms_url s) as [u|] eqn:Hurl.
      * destruct (String.eqb_spec u "") as [Hu|Hu]; split.
        -- done.
        -- intros (_ & s' & u' & Hs' & Hu' & Hne & _). simplify_eq.
        -- intros [= <-]. split; [done|]. by exists s, u.
        -- intros (_ & s' & u' & Hs' & Hu' & _ & ->). by simplify_eq.
      * split; [done|]. intros (_ & s' & u' & Hs' & Hu' & _). simplify_eq.
    + split; [done|]. by intros (_ & s' & u' & ? & _).
  - split; [done|]. by intros [? _].
Qed.

(** X11: of the ports that connect, the service listens only to those
    named [EXTERNAL_PORT_NAME] whose sender has a URL that is not empty.
    A message on any other port changes nothing and gets no response, not
    even an error; a message on such a port is handled by
    [onMessageListener] with that URL as the origin. *)
Theorem only_external_ports_with_url_are_heard
    (port : RuntimePort) (event : PortRequestEvent.t) (w : World) :
  (port_onMessage port event w ≠ w ↔
     rp_name port = EXTERNAL_PORT_NAME ∧
     ∃ s u, rp_sender port = Some s ∧ ms_url s = Some u ∧ u ≠ "") ∧
  (∀ s u, rp_name port = EXTERNAL_PORT_NAME → rp_sender port = Some s →
          ms_url s = Some u → u ≠ "" →
          port_onMessage port event w
            = onMessageListener {| sender_url := u; sender_tab := ms_tab s |} event w).
Proof.
  unfold port_onMessage. split.
  - destruct (onConnect port) as [required|] eqn:Hc; split.
    + intros _. apply onConnect_Some in Hc as (Hn & s & u & Hs & Hu & Hne & _).
      split; [done|]. by exists s, u.
    + intros _. apply onMessageListener_changes.
    + done.
    + intros (Hn & s & u & Hs & Hu & Hne).
      assert (onConnect port = Some {| sender_url := u; sender_tab := ms_tab s |}) as Hc'.
      { apply onConnect_Some. split; [done|]. by exists s, u. }
      congruence.
  - intros s u Hn Hs Hu Hne.
    assert (onConnect port = Some {| sender_url := u; sender_tab := ms_tab s |}) as ->.
    { apply onConnect_Some. split; [done|]. by exists s, u. }
    done.
Qed.

End ConstructorProperties.

(** ** More on the selectors *)

(** X12: [selectCurrentPendingPermission] yields a permission request
    exactly when that request has the state [request] and every request
    that [Object.values] enumerates before it has another state: it is
    the oldest request still waiting, whatever comes after it. *)
Theorem current_pending_is_first_request (st : RootState) (p : PermissionRequest) :
  selectCurrentPendingPermission st = Some p ↔
  ∃ l1 l2, selectPermissionRequests st = l1 ++ p :: l2 ∧
           Forall (λ q, state q ≠ "request") l1 ∧ state p = "request".
Proof.
  unfold selectCurrentPendingPermission, selectPendingPermissionRequests.
  apply first_request_spec.
Qed.

(** ** The further properties at work in the concrete setting *)

(** X1: the user's grant is what allows the waiting dApp. *)
Lemma only_grant_allows_witness :
  checkPermission "https://dapp.example" awaitingConsent = false ∧
  checkPermission "https://dapp.example"
    (step (provider := demoProvider) (browser := demoBrowser)
       awaitingConsent (Grant (dappRecord "allow"))) = true ∧
  ∃ r, Grant (dappRecord "allow") = Grant r ∧ url r = "https://dapp.example" ∧
       state r = "allow" ∧
       (is_Some (pendingPermissionsRequests awaitingConsent !! "https://dapp.example") ∨
        pendingPermissionsRequests awaitingConsent !! "https://dapp.example" = None ∧
        "https://dapp.example" ∈ Object_prototype_names) ∧
       allowedPages (step (provider := demoProvider) (browser := demoBrowser)
                       awaitingConsent (Grant (dappRecord "allow")))
         !! "https://dapp.example" = Some r.
Proof.
  assert (H1 : checkPermission "https://dapp.example" awaitingConsent = false)
    by (by vm_compute).
  assert (H2 : checkPermission "https://dapp.example"
                 (step (provider := demoProvider) (browser := demoBrowser)
                    awaitingConsent (Grant (dappRecord "allow"))) = true)
    by (by vm_compute).
  split; [exact H1|]. split; [exact H2|].
  exact (only_grant_allows (provider := demoProvider) (browser := demoBrowser)
           "https://dapp.example" awaitingConsent (Grant (dappRecord "allow")) H1 H2).
Defined.

(** X2: the record held for the dApp is the one the user granted. *)
Lemma stored_record_was_granted_witness :
  allowedPages
    (run (provider := demoProvider) (browser := demoBrowser)
       [Message dappPort (envelope "1" "eth_requestAccounts" []); WindowOpened 0;
        Grant (dappRecord "allow")] initial)
    !! "https://dapp.example" = Some (dappRecord "allow") ∧
  Grant (dappRecord "allow")
    ∈ [Message dappPort (envelope "1" "eth_requestAccounts" []); WindowOpened 0;
       Grant (dappRecord "allow")] ∧
  url (dappRecord "allow") = "https://dapp.example".
Proof.
  assert (H1 : allowedPages
    (run (provider := demoProvider) (browser := demoBrowser)
       [Message dappPort (envelope "1" "eth_requestAccounts" []); WindowOpened 0;
        Grant (dappRecord "allow")] initial)
    !! "https://dapp.example" = Some (dappRecord "allow")) by (by vm_compute).
  split; [exact H1|].
  exact (stored_record_was_granted (provider := demoProvider) (browser := demoBrowser)
           _ _ _ H1).
Defined.

(** X3: the user allows another site and turns the dApp down; the dApp
    then asks for a signature. *)
Lemma never_granted_origin_gets_only_errors_witness :
  (∀ r, Grant r ∈ [Message dappPort (envelope "1" "eth_requestAccounts" []);
                   WindowOpened 0;
                   Message otherPort (envelope "a" "eth_requestAccounts" []);
                   WindowOpened 1;
                   Grant (otherRecord "allow"); Resume 1;
                   Deny (dappRecord "deny"); Resume 0;
                   Message dappPort (envelope "2" "personal_sign" [JStr "0x00"])] →
        url r = "https://dapp.example" → state r ≠ "allow") ∧
  checkPermission "https://dapp.example"
    (run (provider := demoProvider) (browser := demoBrowser)
       [Message dappPort (envelope "1" "eth_requestAccounts" []);
        WindowOpened 0;
        Message otherPort (envelope "a" "eth_requestAccounts" []);
        WindowOpened 1;
        Grant (otherRecord "allow"); Resume 1;
        Deny (dappRecord "deny"); Resume 0;
        Message dappPort (envelope "2" "personal_sign" [JStr "0x00"])] initial)
    = false.
Proof.
  assert (H1 : ∀ r, Grant r ∈ [Message dappPort (envelope "1" "eth_requestAccounts" []);
                   WindowOpened 0;
                   Message otherPort (envelope "a" "eth_requestAccounts" []);
                   WindowOpened 1;
                   Grant (otherRecord "allow"); Resume 1;
                   Deny (dappRecord "deny"); Resume 0;
                   Message dappPort (envelope "2" "personal_sign" [JStr "0x00"])] →
        url r = "https://dapp.example" → state r ≠ "allow").
  { intros r Hin Hu.
    repeat (apply elem_of_cons in Hin as [Hin|Hin];
            [try discriminate Hin; injection Hin as ->; discriminate Hu|]).
    by apply elem_of_nil in Hin. }
  split; [exact H1|].
  exact (proj1 (never_granted_origin_gets_only_errors (provider := demoProvider)
                  (browser := demoBrowser) "https://dapp.example" _ H1)).
Defined.

(** X7: while the dApp waits, its pending request is backed by its call. *)
Lemma pending_request_has_a_waiting_caller_witness :
  pendingPermissionsRequests
    (run (provider := demoProvider) (browser := demoBrowser)
       [Message dappPort (envelope "1" "eth_requestAccounts" []); WindowOpened 0]
       initial) !! "https://dapp.example" = Some 0 ∧
  promises
    (run (provider := demoProvider) (browser := demoBrowser)
       [Message dappPort (envelope "1" "eth_requestAccounts" []); WindowOpened 0]
       initial) !! 0 = Some Pending.
Proof.
  assert (H1 : pendingPermissionsRequests
    (run (provider := demoProvider) (browser := demoBrowser)
       [Message dappPort (envelope "1" "eth_requestAccounts" []); WindowOpened 0]
       initial) !! "https://dapp.example" = Some 0) by (by vm_compute).
  split; [exact H1|].
  exact (proj1 (pending_request_has_a_waiting_caller (provider := demoProvider)
                  (browser := demoBrowser) _ _ _ H1)).
Defined.

(** X8: the user turns the waiting dApp down. *)
Lemma turning_down_answers_user_rejected_witness :
  (calls awaitingConsent !! 0 = Some firstCaller ∧
   c_stage firstCaller = AwaitConsent 0 ∧
   pendingPermissionsRequests awaitingConsent !! sender_url (c_port firstCaller)
     = Some 0 ∧
   promises awaitingConsent !! 0 = Some Pending ∧
   url (dappRecord "deny") = sender_url (c_port firstCaller)) ∧
  posted (resume 0 (denyOrRevokePermission (dappRecord "deny") awaitingConsent))
    = [(dappPort, {| PortResponseEvent.id := "1";
                     PortResponseEvent.result :=
                       BridgeError (new_EIP1193Error userRejectedRequest) |})].
Proof.
  assert (H1 : calls awaitingConsent !! 0 = Some firstCaller) by (by vm_compute).
  assert (H2 : c_stage firstCaller = AwaitConsent 0) by reflexivity.
  assert (H3 : pendingPermissionsRequests awaitingConsent
                 !! sender_url (c_port firstCaller) = Some 0) by (by vm_compute).
  assert (H4 : promises awaitingConsent !! 0 = Some Pending) by (by vm_compute).
  assert (H5 : url (dappRecord "deny") = sender_url (c_port firstCaller))
    by reflexivity.
  split; [by repeat split|].
  exact (proj1 (proj1 (turning_down_answers_user_rejected awaitingConsent 0 0
                         firstCaller (dappRecord "deny") H1 H2 H3 H4 H5))).
Defined.

(** X9: two sites wait for the user; allowing the dApp leaves the other
    site waiting. *)
Lemma decision_leaves_other_origins_alone_witness :
  url (dappRecord "allow") ≠ "https://other.example" ∧
  pendingPermissionsRequests
    (grantPermission (dappRecord "allow")
       (run (provider := demoProvider) (browser := demoBrowser)
          [Message dappPort (envelope "1" "eth_requestAccounts" []); WindowOpened 0;
           Message otherPort (envelope "a" "eth_requestAccounts" []); WindowOpened 1]
          initial)) !! "https://other.example"
  = pendingPermissionsRequests
      (run (provider := demoProvider) (browser := demoBrowser)
         [Message dappPort (envelope "1" "eth_requestAccounts" []); WindowOpened 0;
          Message otherPort (envelope "a" "eth_requestAccounts" []); WindowOpened 1]
         initial) !! "https://other.example".
Proof.
  assert (H1 : url (dappRecord "allow") ≠ "https://other.example") by discriminate.
  split; [exact H1|].
  destruct (decision_leaves_other_origins_alone (provider := demoProvider)
              (browser := demoBrowser)
              [Message dappPort (envelope "1" "eth_requestAccounts" []); WindowOpened 0;
               Message otherPort (envelope "a" "eth_requestAccounts" []); WindowOpened 1]
              (dappRecord "allow") "https://other.example" H1)
    as [(_ & Hp & _) _].
  exact Hp.
Defined.

(** X11: the dApp's port is listened to. *)
Lemma only_external_ports_with_url_are_heard_witness :
  rp_name dappRuntimePort = EXTERNAL_PORT_NAME (ProviderBridgeShared := demoShared) ∧
  port_onMessage (shared := demoShared) (provider := demoProvider)
    (browser := demoBrowser) dappRuntimePort
    (envelope "1" "eth_requestAccounts" []) initial
  = onMessageListener (provider := demoProvider) (browser := demoBrowser)
      dappPort (envelope "1" "eth_requestAccounts" []) initial.
Proof.
  assert (H1 : rp_name dappRuntimePort
               = EXTERNAL_PORT_NAME (ProviderBridgeShared := demoShared))
    by reflexivity.
  split; [exact H1|].
  destruct (only_external_ports_with_url_are_heard (shared := demoShared)
              (provider := demoProvider) (browser := demoBrowser)
              dappRuntimePort (envelope "1" "eth_requestAccounts" []) initial)
    as [_ Hheard].
  apply (Hheard {| ms_url := Some "https://dapp.example"; ms_tab := None |}
           "https://dapp.example" H1 eq_refl eq_refl).
  discriminate.
Defined.

(** X12: of the two dApps still asking, the one enumerated first is the
    current one. *)
Lemma current_pending_is_first_request_witness :
  selectCurrentPendingPermission busySlice = Some (otherRecord "request") ∧
  ∃ l1 l2, selectPermissionRequests busySlice = l1 ++ otherRecord "request" :: l2 ∧
           Forall (λ q, state q ≠ "request") l1 ∧
           state (otherRecord "request") = "request".
Proof.
  assert (H1 : selectCurrentPendingPermission busySlice = Some (otherRecord "request"))
    by reflexivity.
  split; [exact H1|].
  exact (proj1 (current_pending_is_first_request busySlice (otherRecord "request")) H1).
Defined.

(** X13: once allowed, the dApp asks for its accounts again and for the
    chain. *)
Lemma granted_origin_is_dispatched_witness :
  (pendingPermissionsRequests awaitingConsent !! url (dappRecord "allow") = Some 0 ∧
   state (dappRecord "allow") = "allow" ∧
   sender_url dappPort = url (dappRecord "allow")) ∧
  providerCalls
    (onMessageListener (provider := demoProvider) (browser := demoBrowser) dappPort
       (envelope "3" "eth_requestAccounts" [])
       (grantPermission (dappRecord "allow") awaitingConsent))
  = [("eth_accounts", [])] ∧
  posted
    (onMessageListener (provider := demoProvider) (browser := demoBrowser) dappPort
       (envelope "3" "eth_requestAccounts" [])
       (grantPermission (dappRecord "allow") awaitingConsent))
  = [(dappPort, {| PortResponseEvent.id := "3";
                   PortResponseEvent.result := Value (JArr [JStr "0xA11CE"]) |})].
Proof.
  assert (H1 : pendingPermissionsRequests awaitingConsent !! url (dappRecord "allow")
               = Some 0) by (by vm_compute).
  assert (H2 : state (dappRecord "allow") = "allow") by reflexivity.
  assert (H3 : sender_url dappPort = url (dappRecord "allow")) by reflexivity.
  split; [by repeat split|].
  destruct (granted_origin_is_dispatched (provider := demoProvider)
              (browser := demoBrowser) awaitingConsent (dappRecord "allow") 0
              dappPort (envelope "3" "eth_requestAccounts" []) H1 H2 H3)
    as (_ & _ & _ & Hcalls & Hposted).
  split; [exact Hcalls|exact Hposted].
Defined.

(** X14: a record named [toString], granted to a fresh service. *)
Lemma inherited_name_passes_the_guard_witness :
  pendingPermissionsRequests initial !! url (namedRecord "toString" "allow") = None ∧
  url (namedRecord "toString" "allow") ∈ Object_prototype_names ∧
  checkPermission "toString" (grantPermission (namedRecord "toString" "allow") initial)
    = true ∧
  checkPermission "toString"
    (denyOrRevokePermission (namedRecord "toString" "allow")
       (grantPermission (namedRecord "toString" "allow") initial)) = false.
Proof.
  assert (H1 : pendingPermissionsRequests initial
                 !! url (namedRecord "toString" "allow") = None) by reflexivity.
  assert (H2 : url (namedRecord "toString" "allow") ∈ Object_prototype_names)
    by (by apply (bool_decide_unpack _)).
  split; [exact H1|]. split; [exact H2|].
  destruct (inherited_name_passes_the_guard (namedRecord "toString" "allow")
              initial H1 H2) as ((_ & Hc & _) & _).
  split; [exact Hc|].
  assert (H3 : pendingPermissionsRequests
                 (grantPermission (namedRecord "toString" "allow") initial)
                 !! url (namedRecord "toString" "allow") = None) by reflexivity.
  destruct (inherited_name_passes_the_guard (namedRecord "toString" "allow")
              _ H3 H2) as (_ & Hdeny & _).
  apply Hdeny. discriminate.
Defined.
